(** * ArquiCostos: cost roll-up engine and project store

    A shallow embedding of [src/App.tsx] (cost engine, project store,
    import / restore handlers) and of the data declarations of
    [src/unnamed/part_000] (the [types] module imported by [App.tsx]).

    - JavaScript [number]s are kept behind the interface [Number]: the
      cost engine is written once over it, exactly as the source writes
      it.  The instance [binary64] is the IEEE 754 double of JavaScript
      (round to nearest even, one [NaN]); the instance on [Qc] is exact
      rational arithmetic, in which the specification's algebra lives.
    - JSON values are the inductive type [json]; JavaScript objects used
      as records are finite maps from property names to values.
    - Handlers run in a small state-and-exception monad over [World],
      the React state cells and browser facilities the handlers touch.
      A handler runs to completion on the state it was rendered with;
      state updates take effect in program order, and the callback of
      the file reader runs right after the handler that started the
      read. *)

From Stdlib Require Import QArith Qcanon ZArith Lia.
From Stdlib Require Import Floats.SpecFloat.
From stdpp Require Import base gmap strings list pretty.

Set Warnings "-register-all".
Set Default Proof Using "Type".

(** ** Numbers *)

Declare Scope num_scope.
Delimit Scope num_scope with num.

Class Number (N : Type) := {
  num : Z -> N;
  nadd : N -> N -> N;
  nmul : N -> N -> N;
  ndiv : N -> N -> N
}.

Infix "+" := nadd : num_scope.
Infix "*" := nmul : num_scope.
Infix "/" := ndiv : num_scope.

(** Exact rational arithmetic. *)
#[export] Instance Qc_Number : Number Qc := {
  num z := Q2Qc (inject_Z z);
  nadd := Qcplus;
  nmul := Qcmult;
  ndiv := Qcdiv
}.

(** IEEE 754 binary64, the representation of a JavaScript [number]:
    53 bits of precision, exponents below 1024. *)
Definition binary64 : Type := spec_float.

Definition prec : Z := 53.
Definition emax : Z := 1024.

#[export] Instance binary64_Number : Number binary64 := {
  num z := binary_normalize prec emax z 0 false;
  nadd := SFadd prec emax;
  nmul := SFmul prec emax;
  ndiv := SFdiv prec emax
}.

(** Neither [NaN] nor an infinity ([Number.isFinite]). *)
Definition isFinite (x : binary64) : bool :=
  match x with
  | S754_zero _ | S754_finite _ _ _ => true
  | S754_infinity _ | S754_nan => false
  end.

(** ** Data model ([types]) *)

Inductive ResourceType : Type :=
  | MATERIAL
  | MANO_DE_OBRA
  | EQUIPO
  | TRANSPORTE.

#[export] Instance ResourceType_eq_dec : EqDecision ResourceType.
Proof. solve_decision. Defined.

Module Resource.
Record t (N : Type) : Type := mk {
    id : string;
    name : string;
    unit : string;
    price : N;
    quantity : N;
    type : ResourceType
  }.
Arguments mk {N}.
Arguments id {N}.
Arguments name {N}.
Arguments unit {N}.
Arguments price {N}.
Arguments quantity {N}.
Arguments type {N}.
End Resource.

Module APU.
Record t (N : Type) : Type := mk {
    id : string;
    code : string;
    description : string;
    unit : string;
    quantity : N;
    resources : list (Resource.t N);
    indirectsPercentage : N;
    profitPercentage : N;
    category : string
  }.
Arguments mk {N}.
Arguments id {N}.
Arguments code {N}.
Arguments description {N}.
Arguments unit {N}.
Arguments quantity {N}.
Arguments resources {N}.
Arguments indirectsPercentage {N}.
Arguments profitPercentage {N}.
Arguments category {N}.
End APU.

Module ProjectStats.
Record t (N : Type) : Type := mk {
    totalDirectCost : N;
    totalPrice : N;
    materialCost : N;
    laborCost : N;
    equipmentCost : N;
    transportCost : N
  }.
Arguments mk {N}.
Arguments totalDirectCost {N}.
Arguments totalPrice {N}.
Arguments materialCost {N}.
Arguments laborCost {N}.
Arguments equipmentCost {N}.
Arguments transportCost {N}.
End ProjectStats.

(** ** Cost engine *)

Section CostEngine.
Context {N : Type} `{Number N}.
Local Open Scope num_scope.

(** [Array.prototype.reduce] with an initial value is a left fold. *)
Definition reduce {A B : Type} (l : list A) (f : B -> A -> B) (init : B) : B :=
  fold_left f l init.

Definition calculateUnitPrice (apu : APU.t N) : N :=
  let directCost :=
    reduce (APU.resources apu)
      (fun acc curr => acc + (Resource.price curr * Resource.quantity curr))
      (num 0) in
  let indirects := directCost * (APU.indirectsPercentage apu / num 100) in
  let profit := (directCost + indirects) * (APU.profitPercentage apu / num 100) in
  directCost + indirects + profit.

Definition calculateTotalFromList (list : list (APU.t N)) : N :=
  reduce list
    (fun acc apu => acc + (calculateUnitPrice apu * APU.quantity apu))
    (num 0).

(** *** The specification's vocabulary *)

(** Σ over a sequence of amounts. *)
Fixpoint Sigma (l : list N) : N :=
  match l with
  | [] => num 0
  | x :: l' => x + Sigma l'
  end.

(** The same sum, accumulated from 0 in sequence order. *)
Definition SigmaLeft (l : list N) : N := fold_left nadd l (num 0).

Definition lineCost (r : Resource.t N) : N :=
  Resource.price r * Resource.quantity r.

(** Direct cost: Σ over resources of price × quantity. *)
Definition directCostOf (apu : APU.t N) : N :=
  Sigma (map lineCost (APU.resources apu)).

Definition ofType (ty : ResourceType) (r : Resource.t N) : bool :=
  bool_decide (Resource.type r = ty).

(** Modelled from the spec: the category subtotals of [ProjectStats].
    [src/unnamed/part_000] only declares the record; no function under
    [src/] fills it.  Section 4.1: each subtotal sums, across every APU
    and every Resource therein, price × quantity filtered by the
    resource's type, with no markup applied. *)
Definition categoryCost (ty : ResourceType) (apus : list (APU.t N)) : N :=
  Sigma (map (fun apu =>
                Sigma (map lineCost (List.filter (ofType ty) (APU.resources apu))))
             apus).

(** Modelled from the spec: [aggregate] of section 4.1.  The total
    price is the source's [calculateTotalFromList]; the total direct
    cost and the four subtotals follow the specification's wording. *)
Definition aggregate (apus : list (APU.t N)) : ProjectStats.t N :=
  ProjectStats.mk
    (Sigma (map directCostOf apus))
    (calculateTotalFromList apus)
    (categoryCost MATERIAL apus)
    (categoryCost MANO_DE_OBRA apus)
    (categoryCost EQUIPO apus)
    (categoryCost TRANSPORTE apus).

(** The compounded form of section 8:
    directCost × (1 + indirects/100) × (1 + profit/100). *)
Definition productForm (apu : APU.t N) : N :=
  directCostOf apu
  * (num 1 + APU.indirectsPercentage apu / num 100)
  * (num 1 + APU.profitPercentage apu / num 100).

(** One Σ over all the resources of a type across all the APUs. *)
Definition flatCategory (ty : ResourceType) (apus : list (APU.t N)) : N :=
  Sigma (map lineCost (List.filter (ofType ty) (concat (map APU.resources apus)))).

Definition withMarkup (i p : N) (apu : APU.t N) : APU.t N :=
  APU.mk (APU.id apu) (APU.code apu) (APU.description apu) (APU.unit apu)
         (APU.quantity apu) (APU.resources apu) i p (APU.category apu).

Definition withResources (rs : list (Resource.t N)) (apu : APU.t N) : APU.t N :=
  APU.mk (APU.id apu) (APU.code apu) (APU.description apu) (APU.unit apu)
         (APU.quantity apu) rs (APU.indirectsPercentage apu)
         (APU.profitPercentage apu) (APU.category apu).
End CostEngine.

(** ** JSON values and JavaScript property access *)

(** A value produced by [JSON.parse].  An object is a finite map from
    property names to values. *)
Inductive json : Type :=
  | JNull
  | JBool (b : bool)
  | JNum (x : binary64)
  | JStr (s : string)
  | JArr (l : list json)
  | JObj (m : gmap string json).

(** The result of a property read is a value or [undefined] ([None]). *)
Abbreviation jsval := (option json).

(** JavaScript truthiness: [undefined], [null], [false], [0], [-0],
    [NaN] and the empty string are falsy; every array and object is
    truthy. *)
Definition truthy (v : jsval) : bool :=
  match v with
  | None => false
  | Some JNull => false
  | Some (JBool b) => b
  | Some (JNum (S754_zero _)) => false
  | Some (JNum S754_nan) => false
  | Some (JNum _) => true
  | Some (JStr s) => negb (String.eqb s "")
  | Some (JArr _) => true
  | Some (JObj _) => true
  end.

(** [v.k] on a value other than [null], for the property names the
    source reads ([apus], [name], [id]): objects answer their entry,
    primitives and arrays answer [undefined]. *)
Definition prop (v : json) (k : string) : jsval :=
  match v with
  | JObj m => m !! k
  | _ => None
  end.

(** [a === b].  Objects and arrays compare by reference in JavaScript;
    the identifiers compared by the source are strings, and for two
    objects or arrays the model answers [false]. *)
Definition strict_eq (a b : jsval) : bool :=
  match a, b with
  | None, None => true
  | Some JNull, Some JNull => true
  | Some (JBool x), Some (JBool y) => Bool.eqb x y
  | Some (JNum x), Some (JNum y) => SFeqb x y
  | Some (JStr x), Some (JStr y) => String.eqb x y
  | _, _ => false
  end.

Definition indexed {A : Type} (l : list A) : list (string * A) :=
  imap (fun i x => (pretty i, x)) l.

Fixpoint chars (s : string) : list json :=
  match s with
  | EmptyString => []
  | String c s' => JStr (String c EmptyString) :: chars s'
  end.

(** The own enumerable properties copied by an object spread [{...v}]. *)
Definition object_spread (v : json) : gmap string json :=
  match v with
  | JObj m => m
  | JArr l => list_to_map (indexed l)
  | JStr s => list_to_map (indexed (chars s))
  | _ => ∅
  end.

(** The shape of a [Project] record as declared in [types]:
    [id] and [name] strings, [lastModified] a number, [apus] an array. *)
Definition projectShaped (v : json) : bool :=
  match v with
  | JObj m =>
      match m !! "id", m !! "name", m !! "lastModified", m !! "apus" with
      | Some (JStr _), Some (JStr _), Some (JNum _), Some (JArr _) => true
      | _, _, _, _ => false
      end
  | _ => false
  end.

(** ** The application state and its monad *)

Inductive exn : Type := SyntaxError | TypeError.

(** An entry written by [console.error]. *)
Inductive logged : Type :=
  | ErrorWith (msg : string) (e : exn)
  | ErrorOf (e : exn).

Record World : Type := mkWorld {
  projects : list json;             (* useState<Project[]> *)
  currentProject : option json;     (* useState<Project | null> *)
  projectAPUs : list json;          (* useState<APU[]> *)
  editingApuId : option string;     (* useState<string | null> *)
  currentEditorAPU : option json;   (* useState<APU | null> *)
  showBackupModal : bool;
  localStorage : gmap string string;
  alerts : list string;             (* window.alert, oldest first *)
  console : list logged;            (* console.error, oldest first *)
  clock : nat -> Z;                 (* the n-th reading of Date.now() *)
  reads : nat                       (* readings taken so far *)
}.

(** How a computation ends.  [IllTyped] marks a state cell receiving a
    value outside its TypeScript type; the model goes no further. *)
Inductive outcome (A : Type) : Type :=
  | Return (a : A)
  | Throw (e : exn)
  | IllTyped.
Arguments Return {A}.
Arguments Throw {A}.
Arguments IllTyped {A}.

Definition M (A : Type) : Type := World -> outcome A * World.

Definition ret {A : Type} (a : A) : M A := fun w => (Return a, w).

Definition bind {A B : Type} (c : M A) (k : A -> M B) : M B :=
  fun w =>
    match c w with
    | (Return a, w') => k a w'
    | (Throw e, w') => (Throw e, w')
    | (IllTyped, w') => (IllTyped, w')
    end.

Definition throw {A : Type} (e : exn) : M A := fun w => (Throw e, w).

Definition illTyped {A : Type} : M A := fun w => (IllTyped, w).

(** [try { body } catch (err) { handler }]: state changes made before
    the exception stay. *)
Definition try_catch {A : Type} (body : M A) (handler : exn -> M A) : M A :=
  fun w =>
    match body w with
    | (Throw e, w') => handler e w'
    | r => r
    end.

Declare Scope js_scope.
Delimit Scope js_scope with js.
Notation "'let!' x ':=' c 'in' k" := (bind c (fun x => k))
  (at level 10, x name, c at level 100, k at level 200) : js_scope.
Notation "c ';;' k" := (bind c (fun _ => k))
  (at level 100, k at level 200, right associativity) : js_scope.

Definition exec {A : Type} (c : M A) (w : World) : World := snd (c w).
Definition result {A : Type} (c : M A) (w : World) : outcome A := fst (c w).

(** *** State cells and browser facilities *)

Definition setProjects (l : list json) : M unit := fun w =>
  (Return tt,
   mkWorld l (currentProject w) (projectAPUs w) (editingApuId w)
     (currentEditorAPU w) (showBackupModal w) (localStorage w) (alerts w)
     (console w) (clock w) (reads w)).

Definition setCurrentProject (p : option json) : M unit := fun w =>
  (Return tt,
   mkWorld (projects w) p (projectAPUs w) (editingApuId w)
     (currentEditorAPU w) (showBackupModal w) (localStorage w) (alerts w)
     (console w) (clock w) (reads w)).

Definition setProjectAPUs (l : list json) : M unit := fun w =>
  (Return tt,
   mkWorld (projects w) (currentProject w) l (editingApuId w)
     (currentEditorAPU w) (showBackupModal w) (localStorage w) (alerts w)
     (console w) (clock w) (reads w)).

Definition setEditingApuId (i : option string) : M unit := fun w =>
  (Return tt,
   mkWorld (projects w) (currentProject w) (projectAPUs w) i
     (currentEditorAPU w) (showBackupModal w) (localStorage w) (alerts w)
     (console w) (clock w) (reads w)).

Definition setCurrentEditorAPU (a : option json) : M unit := fun w =>
  (Return tt,
   mkWorld (projects w) (currentProject w) (projectAPUs w) (editingApuId w)
     a (showBackupModal w) (localStorage w) (alerts w)
     (console w) (clock w) (reads w)).

Definition setShowBackupModal (b : bool) : M unit := fun w =>
  (Return tt,
   mkWorld (projects w) (currentProject w) (projectAPUs w) (editingApuId w)
     (currentEditorAPU w) b (localStorage w) (alerts w)
     (console w) (clock w) (reads w)).

Definition localStorage_getItem (key : string) : M (option string) := fun w =>
  (Return (localStorage w !! key), w).

Definition localStorage_setItem (key value : string) : M unit := fun w =>
  (Return tt,
   mkWorld (projects w) (currentProject w) (projectAPUs w) (editingApuId w)
     (currentEditorAPU w) (showBackupModal w) (<[key := value]> (localStorage w))
     (alerts w) (console w) (clock w) (reads w)).

Definition alert (msg : string) : M unit := fun w =>
  (Return tt,
   mkWorld (projects w) (currentProject w) (projectAPUs w) (editingApuId w)
     (currentEditorAPU w) (showBackupModal w) (localStorage w)
     (alerts w ++ [msg]) (console w) (clock w) (reads w)).

Definition console_error (entry : logged) : M unit := fun w =>
  (Return tt,
   mkWorld (projects w) (currentProject w) (projectAPUs w) (editingApuId w)
     (currentEditorAPU w) (showBackupModal w) (localStorage w)
     (alerts w) (console w ++ [entry]) (clock w) (reads w)).

(** [Date.now()]: the next reading of the clock, in milliseconds. *)
Definition Date_now : M Z := fun w =>
  (Return (clock w (reads w)),
   mkWorld (projects w) (currentProject w) (projectAPUs w) (editingApuId w)
     (currentEditorAPU w) (showBackupModal w) (localStorage w)
     (alerts w) (console w) (clock w) (S (reads w))).

(** A functional state update [setProjects(prev => ...)]: the updater
    sees the latest list and may itself perform effects. *)
Definition updateProjects (updater : list json -> M (list json)) : M unit :=
  fun w => bind (updater (projects w)) setProjects w.

(** [v.k], raising a [TypeError] on [null]. *)
Definition get (v : json) (k : string) : M jsval :=
  match v with
  | JNull => throw TypeError
  | _ => ret (prop v k)
  end.

(** [l.map(f)] for a callback that may raise. *)
Fixpoint Array_map (f : json -> M json) (l : list json) : M (list json) :=
  match l with
  | [] => ret []
  | x :: l' =>
      bind (f x) (fun y => bind (Array_map f l') (fun ys => ret (y :: ys)))
  end.

Definition STORAGE_KEY : string := "arquicostos-projects".

Definition MSG_RESTORED : string := "Copia de seguridad restaurada exitosamente.".
Definition MSG_NOT_A_BACKUP : string := "El archivo no es una copia de seguridad válida.".
Definition MSG_READ_ERROR : string := "Error al leer el archivo.".
Definition MSG_IMPORTED : string := "Proyecto importado exitosamente.".
Definition MSG_UNRECOGNIZED : string := "Formato no reconocido.".

Definition isErrorMessage (msg : string) : bool :=
  String.eqb msg MSG_NOT_A_BACKUP || String.eqb msg MSG_READ_ERROR
  || String.eqb msg MSG_UNRECOGNIZED.

(** ** Project store and reconciliation handlers *)

Section Store.
(** The platform's [JSON.parse] ([None]: it raises a [SyntaxError])
    and [JSON.stringify]. *)
Variable JSON_parse : string -> option json.
Variable JSON_stringify : json -> string.

Local Open Scope js_scope.

Definition parse (text : string) : M json :=
  match JSON_parse text with
  | Some v => ret v
  | None => throw SyntaxError
  end.

(** The mount effect: load the persisted document. *)
Definition loadProjects : M unit :=
  let! saved := localStorage_getItem STORAGE_KEY in
  match saved with
  | Some text =>
      if negb (String.eqb text "") then
        try_catch
          (let! v := parse text in
           match v with
           | JArr l => setProjects l
           | _ => illTyped
           end)
          (fun e => console_error (ErrorWith "Error loading projects" e))
      else ret tt
  | None => ret tt
  end.

Definition saveProjectState (updatedAPUs : list json) : M unit :=
  let! w := (fun w => (Return w, w)) in
  match currentProject w with
  | None => ret tt
  | Some cp =>
      if negb (truthy (Some cp)) then ret tt
      else
        let! now := Date_now in
        let updatedProject :=
          JObj (<["lastModified" := JNum (num now)]>
                  (<["apus" := JArr updatedAPUs]> (object_spread cp))) in
        setCurrentProject (Some updatedProject) ;;
        setProjectAPUs updatedAPUs ;;
        updateProjects (fun prevProjects =>
          let! newProjects :=
            Array_map (fun p =>
              let! pid := get p "id" in
              ret (if strict_eq pid (prop updatedProject "id")
                   then updatedProject else p)) prevProjects in
          localStorage_setItem STORAGE_KEY (JSON_stringify (JArr newProjects)) ;;
          ret newProjects)
  end.

Definition handleBackToList : M unit :=
  let! w := (fun w => (Return w, w)) in
  (match currentEditorAPU w, editingApuId w with
   | Some draft, Some eid =>
       if truthy (Some draft) && negb (String.eqb eid "") then
         let! newAPUs :=
           Array_map (fun item =>
             let! iid := get item "id" in
             ret (if strict_eq iid (Some (JStr eid)) then draft else item))
             (projectAPUs w) in
         saveProjectState newAPUs
       else ret tt
   | _, _ => ret tt
   end) ;;
  setEditingApuId None ;;
  setCurrentEditorAPU None.

(** [handleImportBackup]: [file] is the text of the selected file if
    any, [confirmed] the answer to [window.confirm]; the body of
    [reader.onload] runs once the text has been read. *)
Definition handleImportBackup (file : option string) (confirmed : bool) : M unit :=
  match file with
  | None => ret tt
  | Some text =>
      if negb confirmed then ret tt
      else
        try_catch
          (let! json := parse text in
           match json with
           | JArr l =>
               (* Assume it's an array of Projects *)
               setProjects l ;;
               localStorage_setItem STORAGE_KEY (JSON_stringify json) ;;
               alert MSG_RESTORED ;;
               setShowBackupModal false
           | _ => alert MSG_NOT_A_BACKUP
           end)
          (fun err => console_error (ErrorOf err) ;; alert MSG_READ_ERROR)
  end.

Definition appendProject (newProject : json) : M unit :=
  updateProjects (fun prev =>
    let updated := prev ++ [newProject] in
    localStorage_setItem STORAGE_KEY (JSON_stringify (JArr updated)) ;;
    ret updated).

(** [handleFileChange]: import of one file through the file picker. *)
Definition handleFileChange (file : option string) : M unit :=
  match file with
  | None => ret tt
  | Some text =>
      try_catch
        (let! json := parse text in
         let! apus := get json "apus" in
         let! isProject :=
           (if truthy apus
            then (let! name := get json "name" in ret (truthy name))
            else ret false) in
         if isProject then
           (* It's a project *)
           let! now := Date_now in
           let newProject := JObj (<["id" := JStr (pretty now)]> (object_spread json)) in
           appendProject newProject ;;
           alert MSG_IMPORTED
         else
           match json with
           | JArr _ =>
               (* Old format or list of APUs, import as new Project *)
               let! now_id := Date_now in
               let! now_modified := Date_now in
               let newProject :=
                 JObj (<["apus" := json]>
                      (<["lastModified" := JNum (num now_modified)]>
                      (<["name" := JStr "Proyecto Importado"]>
                      (<["id" := JStr (pretty now_id)]> ∅)))) in
               appendProject newProject ;;
               alert MSG_IMPORTED
           | _ => alert MSG_UNRECOGNIZED
           end)
        (fun err => console_error (ErrorOf err) ;; alert MSG_READ_ERROR)
  end.

(** *** Vocabulary for the statements *)

(** The world after a successful restore of the array [l]. *)
Definition restored (l : list json) (w : World) : World :=
  mkWorld l (currentProject w) (projectAPUs w) (editingApuId w)
    (currentEditorAPU w) false
    (<[STORAGE_KEY := JSON_stringify (JArr l)]> (localStorage w))
    (alerts w ++ [MSG_RESTORED]) (console w) (clock w) (reads w).

(** The world after project [p] has been appended and persisted, the
    success message shown and the clock read [k] times. *)
Definition appended (p : json) (k : nat) (w : World) : World :=
  mkWorld (projects w ++ [p]) (currentProject w) (projectAPUs w) (editingApuId w)
    (currentEditorAPU w) (showBackupModal w)
    (<[STORAGE_KEY := JSON_stringify (JArr (projects w ++ [p]))]> (localStorage w))
    (alerts w ++ [MSG_IMPORTED]) (console w) (clock w) (k + reads w).

(** The world left by a completed [saveProjectState]. *)
Definition committed (updated : json) (apus ps : list json) (w : World) : World :=
  mkWorld ps (Some updated) apus (editingApuId w)
    (currentEditorAPU w) (showBackupModal w)
    (<[STORAGE_KEY := JSON_stringify (JArr ps)]> (localStorage w))
    (alerts w) (console w) (clock w) (S (reads w)).
End Store.

(** The world after a rejected file: one more alert, possibly console
    entries, nothing else. *)
Definition reported (msg : string) (entries : list logged) (w : World) : World :=
  mkWorld (projects w) (currentProject w) (projectAPUs w) (editingApuId w)
    (currentEditorAPU w) (showBackupModal w) (localStorage w)
    (alerts w ++ [msg]) (console w ++ entries) (clock w) (reads w).

(** The outcome of mapping a callback that does not touch the world. *)
Fixpoint traverse (g : json -> outcome json) (l : list json) : outcome (list json) :=
  match l with
  | [] => Return []
  | x :: l' =>
      match g x with
      | Return y =>
          match traverse g l' with
          | Return ys => Return (y :: ys)
          | Throw e => Throw e
          | IllTyped => IllTyped
          end
      | Throw e => Throw e
      | IllTyped => IllTyped
      end
  end.

(** What both [map] callbacks of the source compute on one element:
    [item.id === target ? replacement : item]. *)
Definition swapById (target : jsval) (replacement : json) (item : json) : outcome json :=
  match item with
  | JNull => Throw TypeError
  | _ => Return (if strict_eq (prop item "id") target then replacement else item)
  end.

(** The project written by [saveProjectState]. *)
Definition updatedProject (cp : json) (apus : list json) (now : Z) : json :=
  JObj (<["lastModified" := JNum (num now)]>
          (<["apus" := JArr apus]> (object_spread cp))).

(** The world left by [saveProjectState] before the functional update
    of the project list. *)
Definition staged (updated : json) (apus : list json) (w : World) : World :=
  mkWorld (projects w) (Some updated) apus (editingApuId w)
    (currentEditorAPU w) (showBackupModal w) (localStorage w)
    (alerts w) (console w) (clock w) (S (reads w)).

(** The world after the editor has been closed. *)
Definition closedEditor (w : World) : World :=
  mkWorld (projects w) (currentProject w) (projectAPUs w) None None
    (showBackupModal w) (localStorage w) (alerts w) (console w)
    (clock w) (reads w).

(** The guard [currentEditorAPU && editingApuId] of [handleBackToList]. *)
Definition commits (w : World) : bool :=
  match currentEditorAPU w, editingApuId w with
  | Some draft, Some eid => truthy (Some draft) && negb (String.eqb eid "")
  | _, _ => false
  end.

(** The world after one more console entry, nothing else. *)
Definition reported_log (entry : logged) (w : World) : World :=
  mkWorld (projects w) (currentProject w) (projectAPUs w) (editingApuId w)
    (currentEditorAPU w) (showBackupModal w) (localStorage w)
    (alerts w) (console w ++ [entry]) (clock w) (reads w).

(** The single project built from an imported object with entries [m]
    at clock reading [t]. *)
Definition importedProject (m : gmap string json) (t : Z) : json :=
  JObj (<["id" := JStr (pretty t)]> m).


(** The test [json.apus && json.name] of [handleFileChange]. *)
Definition singleProjectShape (v : json) : bool :=
  truthy (prop v "apus") && truthy (prop v "name").

(** What each handler accepts: [handleFileChange] an object passing the
    test above or any array, [handleImportBackup] any array. *)
Definition recognizedImport (v : json) : bool :=
  match v with
  | JArr _ => true
  | _ => singleProjectShape v
  end.

Definition recognizedBackup (v : json) : bool :=
  match v with
  | JArr _ => true
  | _ => false
  end.

(** A parse outcome the handler turns down: a [SyntaxError] or a value
    outside what it accepts. *)
Definition rejected (recognized : json -> bool) (parsed : option json) : bool :=
  match parsed with
  | None => true
  | Some v => negb (recognized v)
  end.

(** The state right after mount, before the load effect runs. *)
Definition initialWorld (storage : gmap string string) (clk : nat -> Z) : World :=
  mkWorld [] None [] None None false storage [] [] clk 0.

(** ** Project, concept and editor handlers *)

(** The dialog cells of [App.tsx] that the handlers below read or
    write; they are passed in and handed back next to the [World]. *)
Record Dialogs : Type := mkDialogs {
  newProjectName : string;          (* useState('') *)
  isCreatingProject : bool;
  projectToDelete : option json;    (* useState<Project | null> *)
  apuToDelete : option json         (* useState<APU | null> *)
}.

Definition byte (c : Ascii.ascii) : N := Ascii.N_of_ascii c.

(** One-byte white space and line terminators: TAB, LF, VT, FF, CR,
    SPACE. *)
Definition space1 (c : Ascii.ascii) : bool :=
  ((9 <=? byte c)%N && (byte c <=? 13)%N) || (byte c =? 32)%N.

(** U+00A0 in UTF-8. *)
Definition space2 (c1 c2 : Ascii.ascii) : bool :=
  (byte c1 =? 194)%N && (byte c2 =? 160)%N.

(** U+1680, U+2000 to U+200A, U+2028, U+2029, U+202F, U+205F, U+3000
    and U+FEFF in UTF-8. *)
Definition space3 (c1 c2 c3 : Ascii.ascii) : bool :=
  ((byte c1 =? 225)%N && (byte c2 =? 154)%N && (byte c3 =? 128)%N)
  || ((byte c1 =? 226)%N && (byte c2 =? 128)%N
      && (((128 <=? byte c3)%N && (byte c3 <=? 138)%N)
          || (byte c3 =? 168)%N || (byte c3 =? 169)%N || (byte c3 =? 175)%N))
  || ((byte c1 =? 226)%N && (byte c2 =? 129)%N && (byte c3 =? 159)%N)
  || ((byte c1 =? 227)%N && (byte c2 =? 128)%N && (byte c3 =? 128)%N)
  || ((byte c1 =? 239)%N && (byte c2 =? 187)%N && (byte c3 =? 191)%N).

(** [!s.trim()]: the text, read as UTF-8, holds nothing but the white
    space and line terminators that [trim] removes. *)
Fixpoint blank (s : string) : bool :=
  match s with
  | EmptyString => true
  | String c1 s1 =>
      if space1 c1 then blank s1
      else
        match s1 with
        | String c2 s2 =>
            if space2 c1 c2 then blank s2
            else
              match s2 with
              | String c3 s3 => if space3 c1 c2 c3 then blank s3 else false
              | EmptyString => false
              end
        | EmptyString => false
        end
  end.

(** [l.filter(f)] and [l.find(f)] for a callback that may raise. *)
Fixpoint Array_filter (f : json -> M bool) (l : list json) : M (list json) :=
  match l with
  | [] => ret []
  | x :: l' =>
      bind (f x) (fun keep =>
        bind (Array_filter f l') (fun ys => ret (if keep then x :: ys else ys)))
  end.

Fixpoint Array_find (f : json -> M bool) (l : list json) : M jsval :=
  match l with
  | [] => ret None
  | x :: l' => bind (f x) (fun found => if found then ret (Some x) else Array_find f l')
  end.

(** The value of a cell of type [string | null]. *)
Definition stringOrNull (c : option string) : jsval :=
  match c with
  | Some s => Some (JStr s)
  | None => Some JNull
  end.

Definition NEW_APU_TEMPLATE : gmap string json :=
  <["id" := JStr ""]>
  (<["code" := JStr "NEW-001"]>
  (<["description" := JStr ""]>
  (<["unit" := JStr "unid"]>
  (<["quantity" := JNum (num 1)]>
  (<["resources" := JArr []]>
  (<["indirectsPercentage" := JNum (num 15)]>
  (<["profitPercentage" := JNum (num 10)]>
  (<["category" := JStr "General"]> ∅)))))))).

Definition handleOpenCreateProjectModal (d : Dialogs) : Dialogs :=
  mkDialogs "" true (projectToDelete d) (apuToDelete d).

Definition handleDeleteProjectClick (project : json) (d : Dialogs) : Dialogs :=
  mkDialogs (newProjectName d) (isCreatingProject d) (Some project) (apuToDelete d).

Definition handleDeleteApuClick (apu : json) (d : Dialogs) : Dialogs :=
  mkDialogs (newProjectName d) (isCreatingProject d) (projectToDelete d) (Some apu).

Definition handleCloseProject : M unit :=
  bind (setCurrentProject None) (fun _ =>
  bind (setProjectAPUs []) (fun _ =>
  setEditingApuId None)).

Definition handleOpenProject (project : json) : M unit :=
  bind (setCurrentProject (Some project)) (fun _ =>
  bind (get project "apus") (fun apus =>
  bind (match apus with
        | Some (JArr l) => setProjectAPUs l
        | _ => illTyped
        end) (fun _ =>
  setEditingApuId None))).

Definition handleEditItem (id : string) : M unit :=
  bind (fun w => (Return w, w)) (fun w =>
  bind (Array_find (fun a =>
          bind (get a "id") (fun aid => ret (strict_eq aid (Some (JStr id)))))
          (projectAPUs w)) (fun itemToEdit =>
  match itemToEdit with
  | Some item =>
      if truthy (Some item) then
        bind (setCurrentEditorAPU (Some (JObj (object_spread item)))) (fun _ =>
        setEditingApuId (Some id))
      else ret tt
  | None => ret tt
  end)).

Definition updateResources (newResources : list json) : M unit :=
  fun w =>
    setCurrentEditorAPU
      (match currentEditorAPU w with
       | Some prev =>
           if truthy (Some prev)
           then Some (JObj (<["resources" := JArr newResources]> (object_spread prev)))
           else None
       | None => None
       end) w.

Definition updateField (field : string) (value : json) : M unit :=
  fun w =>
    setCurrentEditorAPU
      (match currentEditorAPU w with
       | Some prev =>
           if truthy (Some prev)
           then Some (JObj (<[field := value]> (object_spread prev)))
           else None
       | None => None
       end) w.

Section Handlers.
Variable JSON_stringify : json -> string.

Local Open Scope js_scope.

Definition handleConfirmCreateProject (d : Dialogs) : M Dialogs :=
  if blank (newProjectName d) then ret d
  else
    let! now_id := Date_now in
    let! now_modified := Date_now in
    let newProject :=
      JObj (<["apus" := JArr []]>
           (<["lastModified" := JNum (num now_modified)]>
           (<["name" := JStr (newProjectName d)]>
           (<["id" := JStr (pretty now_id)]> ∅)))) in
    appendProject JSON_stringify newProject ;;
    (* Auto open and reset views *)
    setCurrentProject (Some newProject) ;;
    setProjectAPUs [] ;;
    setEditingApuId None ;;
    ret (mkDialogs (newProjectName d) false (projectToDelete d) (apuToDelete d)).

Definition handleConfirmDeleteProject (d : Dialogs) : M Dialogs :=
  match projectToDelete d with
  | None => ret d
  | Some target =>
      if negb (truthy (Some target)) then ret d
      else
        updateProjects (fun prev =>
          let! updated :=
            Array_filter (fun p =>
              let! pid := get p "id" in
              ret (negb (strict_eq pid (prop target "id")))) prev in
          localStorage_setItem STORAGE_KEY (JSON_stringify (JArr updated)) ;;
          ret updated) ;;
        ret (mkDialogs (newProjectName d) (isCreatingProject d) None (apuToDelete d))
  end.

Definition handleCreateItem : M unit :=
  let! w := (fun w => (Return w, w)) in
  let! now := Date_now in
  let newId := pretty now in
  let newItem :=
    JObj (<["code" := JStr (String.append "CON-" (pretty (length (projectAPUs w) + 1)%nat))]>
         (<["id" := JStr newId]> NEW_APU_TEMPLATE)) in
  let newAPUs := projectAPUs w ++ [newItem] in
  (* Update State & Persist *)
  saveProjectState JSON_stringify newAPUs ;;
  (* Auto open editor *)
  setCurrentEditorAPU (Some newItem) ;;
  setEditingApuId (Some newId).

Definition handleConfirmDeleteApu (d : Dialogs) : M Dialogs :=
  let! w := (fun w => (Return w, w)) in
  match apuToDelete d with
  | None => ret d
  | Some target =>
      if negb (truthy (Some target)) then ret d
      else
        let id := prop target "id" in
        let! newAPUs :=
          Array_filter (fun item =>
            let! iid := get item "id" in
            ret (negb (strict_eq iid id))) (projectAPUs w) in
        saveProjectState JSON_stringify newAPUs ;;
        (if strict_eq (stringOrNull (editingApuId w)) id
         then setEditingApuId None ;; setCurrentEditorAPU None
         else ret tt) ;;
        ret (mkDialogs (newProjectName d) (isCreatingProject d) (projectToDelete d) None)
  end.

(** The persisted document is the serialization of the stored list. *)
Definition persisted (w : World) : Prop :=
  localStorage w !! STORAGE_KEY = Some (JSON_stringify (JArr (projects w))).
End Handlers.

(** The editor holds its draft under the draft's own id. *)
Definition editorKeyed (w : World) : Prop :=
  forall draft eid,
    currentEditorAPU w = Some draft -> editingApuId w = Some eid ->
    prop draft "id" = Some (JStr eid).

(** The outcome of filtering with a callback that does not touch the
    world. *)
Fixpoint sieve (g : json -> outcome bool) (l : list json) : outcome (list json) :=
  match l with
  | [] => Return []
  | x :: l' =>
      match g x with
      | Return keep =>
          match sieve g l' with
          | Return ys => Return (if keep then x :: ys else ys)
          | Throw e => Throw e
          | IllTyped => IllTyped
          end
      | Throw e => Throw e
      | IllTyped => IllTyped
      end
  end.

(** What the [filter] callbacks of the source compute on one element:
    [item.id !== target]. *)
Definition otherId (target : jsval) (item : json) : outcome bool :=
  match item with
  | JNull => Throw TypeError
  | _ => Return (negb (strict_eq (prop item "id") target))
  end.

(** No element is [null], so reading a property of any of them
    succeeds. *)
Definition noNull (l : list json) : Prop := Forall (fun x => x <> JNull) l.

(** A computation keeps a property of the world, however it ends. *)
Definition preserves {A : Type} (P : World -> Prop) (c : M A) : Prop :=
  forall w, P w -> P (snd (c w)).

(** A computation leaves the store and the persisted document alone. *)
Definition storeUntouched {A : Type} (c : M A) : Prop :=
  forall w, projects (snd (c w)) = projects w
            /\ localStorage (snd (c w)) = localStorage w.

(** A computation leaves the two editor cells alone. *)
Definition editorUntouched {A : Type} (c : M A) : Prop :=
  forall w, currentEditorAPU (snd (c w)) = currentEditorAPU w
            /\ editingApuId (snd (c w)) = editingApuId w.

(** ** Sample data *)

(** One material line of price 3 and quantity 1, with the default
    markups of [NEW_APU_TEMPLATE] (15 and 10). *)
Definition oneLine {N : Type} `{Number N} : APU.t N :=
  APU.mk "1" "CON-1" "" "unid" (num 1)
    [Resource.mk "r1" "" "" (num 3) (num 1) MATERIAL]
    (num 15) (num 10) "General".

(** The worked example of section 8: 100 × 2 and 50 × 1, markups 15
    and 10. *)
Definition workedExample {N : Type} `{Number N} : APU.t N :=
  APU.mk "2" "CON-2" "" "m2" (num 1)
    [Resource.mk "r1" "" "" (num 100) (num 2) MATERIAL;
     Resource.mk "r2" "" "" (num 50) (num 1) MANO_DE_OBRA]
    (num 15) (num 10) "General".

(** A double quote, and a quoted word as it appears in a JSON text. *)
Definition dq : string := String (Ascii.ascii_of_nat 34) EmptyString.

Definition quoted (s : string) : string := String.append dq (String.append s dq).

(** The text of a single-project file: an object with [apus] (an empty
    array), [name] (Casa) and [id] (7). *)
Definition casaText : string :=
  String.concat ""
    ["{"; quoted "apus"; ":[],"; quoted "name"; ":"; quoted "Casa"; ",";
     quoted "id"; ":"; quoted "7"; "}"].

Definition casa : gmap string json :=
  <["apus" := JArr []]> (<["name" := JStr "Casa"]> (<["id" := JStr "7"]> ∅)).

(** The text of an object with both fields present and an empty name. *)
Definition unnamedText : string :=
  String.concat "" ["{"; quoted "apus"; ":[],"; quoted "name"; ":"; quoted ""; "}"].

Definition unnamed : gmap string json :=
  <["apus" := JArr []]> (<["name" := JStr ""]> ∅).

(** [JSON.parse] on the texts used in the examples; every other text,
    among them the truncated document made of one opening brace,
    counts as malformed here. *)
Definition sampleParse (text : string) : option json :=
  if String.eqb text "[7]" then Some (JArr [JNum (num 7)])
  else if String.eqb text "42" then Some (JNum (num 42))
  else if String.eqb text casaText then Some (JObj casa)
  else if String.eqb text unnamedText then Some (JObj unnamed)
  else None.

(** A stand-in for [JSON.stringify]; no statement depends on the text
    it produces. *)
Definition sampleStringify (v : json) : string :=
  match v with
  | JArr [] => "[]"
  | _ => "[...]"
  end.

Definition storedProject : gmap string json :=
  <["id" := JStr "1"]> (<["name" := JStr "Obra"]>
  (<["lastModified" := JNum (num 1)]> (<["apus" := JArr []]> ∅))).

(** A store holding one project, with a clock advancing one
    millisecond per reading. *)
Definition sampleWorld : World :=
  mkWorld [JObj storedProject] None [] None None true
    {[ STORAGE_KEY := "[...]" ]} [] []
    (fun n => (1700000000000 + Z.of_nat n)%Z) 0.

(** The same store under a clock that returns one reading throughout. *)
Definition frozenWorld : World :=
  mkWorld [JObj storedProject] None [] None None true
    {[ STORAGE_KEY := "[...]" ]} [] []
    (fun _ => 1700000000000%Z) 0.

Definition sampleApu (i : string) : json :=
  JObj (<["id" := JStr i]> (<["code" := JStr "CON-1"]> ∅)).

(** An open project with one APU (id 1) while the editor holds a draft
    under id 99, which the working list does not contain. *)
Definition orphanDraftWorld : World :=
  mkWorld [JObj (<["apus" := JArr [sampleApu "1"]]> storedProject)]
    (Some (JObj (<["apus" := JArr [sampleApu "1"]]> storedProject)))
    [sampleApu "1"] (Some "99") (Some (sampleApu "99")) false
    {[ STORAGE_KEY := "[...]" ]} [] []
    (fun n => (1700000000000 + Z.of_nat n)%Z) 0.

(** A field edit or a replacement of the resources, as the editor
    issues them through [updateField] and [updateResources]. *)
Inductive edit : Type :=
  | EditField (field : string) (value : json)
  | EditResources (rs : list json).

Definition applyEdit (e : edit) : M unit :=
  match e with
  | EditField field value => updateField field value
  | EditResources rs => updateResources rs
  end.

Fixpoint applyEdits (es : list edit) : M unit :=
  match es with
  | [] => ret tt
  | e :: es' => bind (applyEdit e) (fun _ => applyEdits es')
  end.

(** The item built by [handleCreateItem] at clock reading [now] for a
    working list of [n] concepts. *)
Definition newItemAt (now : Z) (n : nat) : json :=
  JObj (<["code" := JStr (String.append "CON-" (pretty (n + 1)%nat))]>
       (<["id" := JStr (pretty now)]> NEW_APU_TEMPLATE)).

(** The project built by [handleConfirmCreateProject]. *)
Definition newProjectAt (name : string) (t_id t_modified : Z) : json :=
  JObj (<["apus" := JArr []]>
       (<["lastModified" := JNum (num t_modified)]>
       (<["name" := JStr name]>
       (<["id" := JStr (pretty t_id)]> ∅)))).

(** [p.id !== target.id], the test kept by both [filter] calls. *)
Definition idDiffers (target : jsval) (p : json) : bool :=
  negb (strict_eq (prop p "id") target).

(** The world with the editor opened on [item] under [id]. *)
Definition editorOn (item : json) (id : string) (w : World) : World :=
  mkWorld (projects w) (currentProject w) (projectAPUs w) (Some id) (Some item)
    (showBackupModal w) (localStorage w) (alerts w) (console w)
    (clock w) (reads w).

(** [a.id === id], the test of [handleEditItem]. *)
Definition hasId (id : string) (a : json) : bool :=
  strict_eq (prop a "id") (Some (JStr id)).

(** The world after one more reading of the clock. *)
Definition ticked (w : World) : World :=
  mkWorld (projects w) (currentProject w) (projectAPUs w) (editingApuId w)
    (currentEditorAPU w) (showBackupModal w) (localStorage w) (alerts w)
    (console w) (clock w) (S (reads w)).



Definition sampleDialogs : Dialogs := mkDialogs "Casa nueva" true None None.


Definition deleteApuDialogs : Dialogs :=
  mkDialogs "" false None (Some (sampleApu "1")).

(** The open project of [orphanDraftWorld], as an entry map. *)
Definition openProject : gmap string json :=
  <["apus" := JArr [sampleApu "1"]]> storedProject.

(** The same open project with the editor on an edited copy of its
    concept, under the concept's id. *)
Definition editingWorld : World :=
  mkWorld [JObj openProject] (Some (JObj openProject))
    [sampleApu "1"] (Some "1")
    (Some (JObj (<["description" := JStr "Muro"]>
                 (<["id" := JStr "1"]> (<["code" := JStr "CON-1"]> ∅)))))
    false {[ STORAGE_KEY := "[...]" ]} [] []
    (fun n => (1700000000000 + Z.of_nat n)%Z) 0.

(** * Properties *)

(** ** Cost engine in any arithmetic *)

Section CostEngineFacts.
Context {N : Type} `{Number N}.
Local Open Scope num_scope.

Lemma fold_left_map_acc {A : Type} (f : A -> N) (l : list A) (a : N) :
  fold_left (fun acc x => acc + f x) l a = fold_left nadd (map f l) a.
Proof.
  revert a. induction l as [|x l IH]; intros a; cbn [fold_left map].
  - reflexivity.
  - apply IH.
Qed.

(** In any arithmetic the unit price is the three-term roll-up over
    the direct cost accumulated in sequence order. *)
Lemma calculateUnitPrice_SigmaLeft (apu : APU.t N) :
  let directCost := SigmaLeft (map lineCost (APU.resources apu)) in
  let indirects := directCost * (APU.indirectsPercentage apu / num 100) in
  let profit := (directCost + indirects) * (APU.profitPercentage apu / num 100) in
  calculateUnitPrice apu = directCost + indirects + profit.
Proof.
  cbv zeta. unfold calculateUnitPrice, SigmaLeft, reduce.
  rewrite <- (fold_left_map_acc lineCost). reflexivity.
Qed.

(** The project total accumulates unit price × quantity in sequence
    order, in any arithmetic. *)
Lemma calculateTotalFromList_SigmaLeft (l : list (APU.t N)) :
  calculateTotalFromList l =
    SigmaLeft (map (fun apu => calculateUnitPrice apu * APU.quantity apu) l).
Proof.
  unfold calculateTotalFromList, SigmaLeft, reduce.
  apply (fold_left_map_acc (fun apu => calculateUnitPrice apu * APU.quantity apu)).
Qed.

(** A category subtotal reads nothing of an APU but its resources. *)
Lemma categoryCost_resources (ty : ResourceType) (apus apus' : list (APU.t N)) :
  map APU.resources apus = map APU.resources apus' ->
  categoryCost ty apus = categoryCost ty apus'.
Proof.
  intros E. unfold categoryCost.
  rewrite <- (List.map_map APU.resources
                (fun rs => Sigma (map lineCost (List.filter (ofType ty) rs))) apus).
  rewrite <- (List.map_map APU.resources
                (fun rs => Sigma (map lineCost (List.filter (ofType ty) rs))) apus').
  rewrite E. reflexivity.
Qed.
End CostEngineFacts.

(** ** Cost engine over IEEE doubles *)

Section DoubleCost.
Local Open Scope num_scope.

Lemma num_0_binary64 : num 0 = S754_zero false :> binary64.
Proof. reflexivity. Qed.

(** With no resources every term of the roll-up is a zero, provided
    the two percentage ratios are finite numbers. *)
Lemma calculateUnitPrice_empty_binary64 (apu : APU.t binary64) :
  isFinite (APU.indirectsPercentage apu / num 100) = true ->
  isFinite (APU.profitPercentage apu / num 100) = true ->
  calculateUnitPrice (withResources [] apu) = num 0.
Proof.
  unfold calculateUnitPrice, withResources, reduce.
  cbn [APU.resources APU.indirectsPercentage APU.profitPercentage fold_left].
  rewrite num_0_binary64.
  generalize (APU.indirectsPercentage apu / num 100).
  generalize (APU.profitPercentage apu / num 100).
  intros p i Hi Hp.
  destruct i as [si|si| |si mi ei]; try discriminate Hi;
    destruct p as [sp|sp| |sp mp ep]; try discriminate Hp;
    destruct si, sp; reflexivity.
Qed.
End DoubleCost.

(** ** Cost engine over exact rationals *)

(** Exposes the rational operations behind the [Number] interface. *)
Ltac to_Qc :=
  change (@nadd Qc Qc_Number) with Qcplus in *;
  change (@nmul Qc Qc_Number) with Qcmult in *;
  change (@ndiv Qc Qc_Number) with Qcdiv in *.

Section ExactCost.
Local Open Scope Qc_scope.

Lemma num_0 : num 0 = 0.
Proof. apply Qc_is_canon. reflexivity. Qed.

Lemma num_100_nonzero : num 100 <> 0.
Proof. intros E. apply (f_equal this) in E. discriminate E. Qed.

Lemma fold_left_add_shift {A : Type} (f : A -> Qc) (l : list A) (a : Qc) :
  fold_left (fun acc x => acc + f x) l a = a + fold_left (fun acc x => acc + f x) l 0.
Proof.
  revert a.
  induction l as [|x l IH]; intros a; cbn [fold_left].
  - ring.
  - rewrite (IH (a + f x)), (IH (0 + f x)). ring.
Qed.

(** The source's accumulating loop computes the specification's Σ. *)
Lemma reduce_add_Sigma {A : Type} (f : A -> Qc) (l : list A) :
  reduce l (fun acc x => nadd acc (f x)) (num 0) = Sigma (map f l).
Proof.
  unfold reduce. rewrite num_0. to_Qc.
  induction l as [|x l IH]; cbn [fold_left map Sigma].
  - symmetry. apply num_0.
  - rewrite fold_left_add_shift, IH. to_Qc. ring.
Qed.

Lemma Sigma_app (l1 l2 : list Qc) : Sigma (l1 ++ l2) = Sigma l1 + Sigma l2.
Proof.
  induction l1 as [|x l1 IH]; cbn [app Sigma].
  - rewrite num_0. ring.
  - rewrite IH. to_Qc. ring.
Qed.

Lemma calculateUnitPrice_unfold (apu : APU.t Qc) :
  calculateUnitPrice apu =
    directCostOf apu
    + directCostOf apu * (APU.indirectsPercentage apu / num 100)
    + (directCostOf apu + directCostOf apu * (APU.indirectsPercentage apu / num 100))
      * (APU.profitPercentage apu / num 100).
Proof.
  unfold calculateUnitPrice, directCostOf. cbv zeta.
  change (reduce (APU.resources apu) _ (num 0))
    with (reduce (APU.resources apu) (fun acc r => nadd acc (lineCost r)) (num 0)).
  rewrite reduce_add_Sigma. reflexivity.
Qed.

Lemma calculateTotalFromList_Sigma (l : list (APU.t Qc)) :
  calculateTotalFromList l =
    Sigma (map (fun apu => calculateUnitPrice apu * APU.quantity apu) l).
Proof.
  unfold calculateTotalFromList.
  apply (reduce_add_Sigma (fun apu => calculateUnitPrice apu * APU.quantity apu)).
Qed.

(** Filtering distributes over the concatenation of the resource lists,
    so a category subtotal is one Σ over all resources of that type. *)
Lemma categoryCost_flat (ty : ResourceType) (apus : list (APU.t Qc)) :
  categoryCost ty apus =
    Sigma (map lineCost (List.filter (ofType ty) (concat (map APU.resources apus)))).
Proof.
  unfold categoryCost.
  induction apus as [|a apus IH]; cbn [map concat Sigma].
  - reflexivity.
  - rewrite List.filter_app, map_app, Sigma_app, IH. reflexivity.
Qed.

Lemma num_1 : num 1 = 1.
Proof. apply Qc_is_canon. reflexivity. Qed.

(** C1 (amended). The unit price is directCost + indirects + profit in
    every arithmetic, IEEE doubles included, with the direct cost
    accumulated over the resources in order.  In exact arithmetic the
    direct cost is the order-free Σ of price × quantity, indirects are
    directCost × indirectsPercentage / 100, profit is
    (directCost + indirects) × profitPercentage / 100, and the total
    equals directCost × (1 + indirects/100) × (1 + profit/100).  With
    no resources the unit price is 0: always in exact arithmetic, and
    on doubles whenever both percentage ratios are finite. *)
Theorem calculateUnitPrice_rollup :
  (forall (N : Type) (HN : Number N) (apu : APU.t N),
     let directCost := SigmaLeft (map lineCost (APU.resources apu)) in
     let indirects := (directCost * (APU.indirectsPercentage apu / num 100))%num in
     let profit := ((directCost + indirects) * (APU.profitPercentage apu / num 100))%num in
     calculateUnitPrice apu = (directCost + indirects + profit)%num)
  /\ (forall apu : APU.t Qc,
       let directCost := directCostOf apu in
       let indirects := directCost * APU.indirectsPercentage apu / num 100 in
       let profit := (directCost + indirects) * APU.profitPercentage apu / num 100 in
       calculateUnitPrice apu = directCost + indirects + profit
       /\ calculateUnitPrice apu = productForm apu
       /\ calculateUnitPrice (withResources [] apu) = 0)
  /\ (forall apu : APU.t binary64,
       isFinite (APU.indirectsPercentage apu / num 100)%num = true ->
       isFinite (APU.profitPercentage apu / num 100)%num = true ->
       calculateUnitPrice (withResources [] apu) = num 0).
Proof.
  split; [|split].
  - intros N HN apu. apply calculateUnitPrice_SigmaLeft.
  - intros apu. cbv zeta.
    pose proof num_100_nonzero as H100.
    split; [|split].
    + rewrite calculateUnitPrice_unfold. to_Qc. field. exact H100.
    + rewrite calculateUnitPrice_unfold. unfold productForm. to_Qc.
      rewrite num_1. field. exact H100.
    + rewrite calculateUnitPrice_unfold. unfold directCostOf, withResources.
      cbn [APU.resources APU.indirectsPercentage APU.profitPercentage map Sigma].
      to_Qc. rewrite num_0. field. exact H100.
  - intros apu. apply calculateUnitPrice_empty_binary64.
Qed.

(** C2. The project total is the sum over the APUs of
    unit price × quantity: accumulated in sequence order in every
    arithmetic, and equal to the order-free Σ in exact arithmetic; for
    two APUs of quantity 1 it is the sum of their unit prices. *)
Theorem calculateTotalFromList_sum :
  (forall (N : Type) (HN : Number N) (l : list (APU.t N)),
     calculateTotalFromList l =
       SigmaLeft (map (fun apu => calculateUnitPrice apu * APU.quantity apu)%num l))
  /\ (forall l : list (APU.t Qc),
       calculateTotalFromList l =
         Sigma (map (fun apu => calculateUnitPrice apu * APU.quantity apu) l))
  /\ (forall a1 a2 : APU.t Qc,
       APU.quantity a1 = 1 -> APU.quantity a2 = 1 ->
       calculateTotalFromList [a1; a2] = calculateUnitPrice a1 + calculateUnitPrice a2).
Proof.
  split; [|split].
  - intros N HN l. apply calculateTotalFromList_SigmaLeft.
  - apply calculateTotalFromList_Sigma.
  - intros a1 a2 Q1 Q2. rewrite calculateTotalFromList_Sigma.
    cbn [map Sigma]. rewrite Q1, Q2, num_0. to_Qc. ring.
Qed.

(** C5. The four category subtotals of the aggregate only depend on
    the resources: in every arithmetic, two APU lists carrying the same
    resources, whatever their indirects and profit percentages, have
    the same subtotals.  In exact arithmetic each subtotal is the Σ of
    price × quantity over all resources of that type across all
    APUs. *)
Theorem categoryCost_unmarked :
  (forall (N : Type) (HN : Number N) (apus apus' : list (APU.t N)),
     map APU.resources apus = map APU.resources apus' ->
     ProjectStats.materialCost (aggregate apus') = ProjectStats.materialCost (aggregate apus)
     /\ ProjectStats.laborCost (aggregate apus') = ProjectStats.laborCost (aggregate apus)
     /\ ProjectStats.equipmentCost (aggregate apus') = ProjectStats.equipmentCost (aggregate apus)
     /\ ProjectStats.transportCost (aggregate apus') = ProjectStats.transportCost (aggregate apus))
  /\ (forall apus : list (APU.t Qc),
       ProjectStats.materialCost (aggregate apus) = flatCategory MATERIAL apus
       /\ ProjectStats.laborCost (aggregate apus) = flatCategory MANO_DE_OBRA apus
       /\ ProjectStats.equipmentCost (aggregate apus) = flatCategory EQUIPO apus
       /\ ProjectStats.transportCost (aggregate apus) = flatCategory TRANSPORTE apus).
Proof.
  split.
  - intros N HN apus apus' E. unfold aggregate.
    cbn [ProjectStats.materialCost ProjectStats.laborCost
         ProjectStats.equipmentCost ProjectStats.transportCost].
    split; [|split; [|split]]; symmetry; apply categoryCost_resources; exact E.
  - intros apus. unfold aggregate, flatCategory.
    cbn [ProjectStats.materialCost ProjectStats.laborCost
         ProjectStats.equipmentCost ProjectStats.transportCost].
    split; [|split; [|split]]; apply categoryCost_flat.
Qed.

(** The worked example of section 8 evaluates to 316.25, in exact
    arithmetic and on doubles alike. *)
Example workedExample_exact :
  calculateUnitPrice (N := Qc) workedExample = (num 31625 / num 100)%num.
Proof. apply Qc_is_canon. reflexivity. Qed.

Example workedExample_double :
  calculateUnitPrice (N := binary64) workedExample = (num 31625 / num 100)%num.
Proof. reflexivity. Qed.

(** On doubles too, the total of these two APUs of quantity 1 is the
    sum of their unit prices. *)
Example total_of_two_double :
  calculateTotalFromList (N := binary64) [oneLine; workedExample]
  = (calculateUnitPrice oneLine + calculateUnitPrice workedExample)%num.
Proof. reflexivity. Qed.

(** C1, as stated, fails on doubles: for one line of price 3 and
    quantity 1 under markups 15 and 10 the source returns
    3.7950000000000004 while the compounded form gives 3.795. *)
Lemma productForm_differs_on_doubles :
  calculateUnitPrice (N := binary64) oneLine <> productForm oneLine.
Proof. vm_compute. discriminate. Qed.

Lemma calculateUnitPrice_rollup_witness :
  isFinite (APU.indirectsPercentage oneLine / num 100)%num = true
  /\ isFinite (APU.profitPercentage oneLine / num 100)%num = true
  /\ calculateUnitPrice (N := binary64) (withResources [] oneLine) = num 0.
Proof.
  split; [reflexivity | split; [reflexivity |]].
  apply (proj2 (proj2 calculateUnitPrice_rollup)); reflexivity.
Defined.

Lemma calculateTotalFromList_sum_witness :
  APU.quantity (N := Qc) oneLine = 1
  /\ APU.quantity (N := Qc) workedExample = 1
  /\ calculateTotalFromList [oneLine; workedExample]
       = calculateUnitPrice oneLine + calculateUnitPrice workedExample.
Proof.
  split; [apply num_1 | split; [apply num_1 |]].
  apply (proj2 (proj2 calculateTotalFromList_sum)); apply num_1.
Defined.

Lemma categoryCost_unmarked_witness :
  map APU.resources [oneLine; workedExample]
  = map APU.resources (map (withMarkup (num 0) (num 0)) [oneLine; workedExample])
  /\ ProjectStats.materialCost
       (aggregate (map (withMarkup (num 0) (num 0)) [oneLine; workedExample]))
     = ProjectStats.materialCost (aggregate (N := binary64) [oneLine; workedExample]).
Proof.
  split; [reflexivity|].
  exact (proj1 (proj1 categoryCost_unmarked binary64 _
                  [oneLine; workedExample]
                  (map (withMarkup (num 0) (num 0)) [oneLine; workedExample])
                  eq_refl)).
Defined.

End ExactCost.

(** ** Project store *)

Section StoreFacts.
Variable JSON_parse : string -> option json.
Variable JSON_stringify : json -> string.

Local Abbreviation restore := (handleImportBackup JSON_parse JSON_stringify).
Local Abbreviation import := (handleFileChange JSON_parse JSON_stringify).

Lemma parse_ok text v w :
  JSON_parse text = Some v -> parse JSON_parse text w = (Return v, w).
Proof. intros E. unfold parse. rewrite E. reflexivity. Qed.

Lemma parse_fails text w :
  JSON_parse text = None -> parse JSON_parse text w = (Throw SyntaxError, w).
Proof. intros E. unfold parse. rewrite E. reflexivity. Qed.

Lemma restore_array text l w :
  JSON_parse text = Some (JArr l) ->
  restore (Some text) true w = (Return tt, restored JSON_stringify l w).
Proof.
  intros E. unfold handleImportBackup, try_catch, bind. cbn [negb].
  rewrite (parse_ok _ _ _ E). reflexivity.
Qed.

Lemma restore_rejected text w :
  rejected recognizedBackup (JSON_parse text) = true ->
  exists msg entries,
    isErrorMessage msg = true
    /\ restore (Some text) true w = (Return tt, reported msg entries w).
Proof.
  intros R. unfold handleImportBackup, try_catch, bind. cbn [negb].
  destruct (JSON_parse text) as [v|] eqn:E.
  - rewrite (parse_ok _ _ _ E).
    exists MSG_NOT_A_BACKUP, [].
    split; [reflexivity|].
    destruct v; try discriminate R;
      unfold alert, reported; rewrite app_nil_r; reflexivity.
  - rewrite (parse_fails _ _ E).
    exists MSG_READ_ERROR, [ErrorOf SyntaxError].
    split; reflexivity.
Qed.

Lemma import_project text m w :
  JSON_parse text = Some (JObj m) ->
  truthy (m !! "apus") = true ->
  truthy (m !! "name") = true ->
  import (Some text) w =
    (Return tt, appended JSON_stringify (importedProject m (clock w (reads w))) 1 w).
Proof.
  intros E Ha Hn. unfold handleFileChange, try_catch, bind.
  rewrite (parse_ok _ _ _ E). cbn [get prop ret].
  rewrite Ha. cbn [get prop ret]. rewrite Hn. reflexivity.
Qed.


Lemma import_rejected text w :
  rejected recognizedImport (JSON_parse text) = true ->
  exists msg entries,
    isErrorMessage msg = true
    /\ import (Some text) w = (Return tt, reported msg entries w).
Proof.
  intros R. unfold handleFileChange, try_catch, bind.
  destruct (JSON_parse text) as [v|] eqn:E.
  - rewrite (parse_ok _ _ _ E).
    cbn [rejected] in R. apply negb_true_iff in R.
    destruct v as [|b|x|s|l|m].
    + exists MSG_READ_ERROR, [ErrorOf TypeError]. split; reflexivity.
    + exists MSG_UNRECOGNIZED, []. split; [reflexivity|].
      unfold alert, reported; cbn; rewrite app_nil_r; reflexivity.
    + exists MSG_UNRECOGNIZED, []. split; [reflexivity|].
      unfold alert, reported; cbn; rewrite app_nil_r; reflexivity.
    + exists MSG_UNRECOGNIZED, []. split; [reflexivity|].
      unfold alert, reported; cbn; rewrite app_nil_r; reflexivity.
    + discriminate R.
    + exists MSG_UNRECOGNIZED, []. split; [reflexivity|].
      cbn [recognizedImport] in R. unfold singleProjectShape in R.
      cbn [prop] in R. cbn [get prop ret].
      destruct (truthy (m !! "apus")) eqn:Ha.
      * cbn [andb] in R. cbn [get prop ret]. rewrite R.
        unfold alert, reported; cbn; rewrite app_nil_r; reflexivity.
      * unfold alert, reported; cbn; rewrite app_nil_r; reflexivity.
  - rewrite (parse_fails _ _ E).
    exists MSG_READ_ERROR, [ErrorOf SyntaxError].
    split; reflexivity.
Qed.

Lemma loadProjects_corrupt saved w :
  localStorage w !! STORAGE_KEY = Some saved ->
  saved <> "" ->
  JSON_parse saved = None ->
  loadProjects JSON_parse w =
    (Return tt, reported_log (ErrorWith "Error loading projects" SyntaxError) w).
Proof.
  intros Hs Hne E. unfold loadProjects, bind, localStorage_getItem.
  rewrite Hs. apply String.eqb_neq in Hne. rewrite Hne. cbn [negb].
  unfold try_catch, bind. rewrite (parse_fails _ _ E). reflexivity.
Qed.

Lemma loadProjects_blank w :
  localStorage w !! STORAGE_KEY = Some "" ->
  loadProjects JSON_parse w = (Return tt, w).
Proof.
  intros Hs. unfold loadProjects, bind, localStorage_getItem.
  rewrite Hs. reflexivity.
Qed.

(** C3 (amended). The restore replacement is taken exactly when the
    parsed top-level value is an array, its elements unchecked: the
    store and the persisted document then hold exactly the parsed
    elements, whatever was there before, and restoring the same backup
    again leaves the same store; for any other parse outcome the store
    and the persisted document stay as they were. *)
Theorem restore_replaces_store text w :
  (forall l, JSON_parse text = Some (JArr l) ->
     let w1 := exec (restore (Some text) true) w in
     let w2 := exec (restore (Some text) true) w1 in
     projects w1 = l
     /\ length (projects w1) = length l
     /\ localStorage w1 !! STORAGE_KEY = Some (JSON_stringify (JArr l))
     /\ projects w2 = projects w1
     /\ localStorage w2 = localStorage w1)
  /\ (rejected recognizedBackup (JSON_parse text) = true ->
      let w1 := exec (restore (Some text) true) w in
      projects w1 = projects w /\ localStorage w1 = localStorage w).
Proof.
  split.
  - intros l E. cbv zeta. unfold exec.
    rewrite (restore_array _ _ w E). cbn [snd].
    rewrite (restore_array _ _ _ E). cbn [snd restored projects localStorage].
    split; [reflexivity|]. split; [reflexivity|].
    split; [apply lookup_insert_eq|].
    split; [reflexivity|]. apply insert_insert_eq.
  - intros R. cbv zeta. unfold exec.
    destruct (restore_rejected text w R) as (msg & entries & _ & ->).
    split; reflexivity.
Qed.

(** C4 (amended). A parsed top-level object whose [apus] and [name]
    are both truthy is appended as a new project whose id is the decimal
    clock reading of the import, every other entry being kept and every
    project already stored staying in place; the appended list is
    persisted.  Importing the same file again appends a second project
    with the same content, and the two ids differ exactly when the two
    clock readings differ. *)
Theorem import_single_project text m w :
  JSON_parse text = Some (JObj m) ->
  truthy (m !! "apus") = true ->
  truthy (m !! "name") = true ->
  let t1 := clock w (reads w) in
  let t2 := clock w (S (reads w)) in
  let p1 := importedProject m t1 in
  let p2 := importedProject m t2 in
  let w1 := exec (import (Some text)) w in
  let w2 := exec (import (Some text)) w1 in
  projects w1 = projects w ++ [p1]
  /\ localStorage w1 !! STORAGE_KEY = Some (JSON_stringify (JArr (projects w ++ [p1])))
  /\ projects w2 = projects w ++ [p1; p2]
  /\ prop p1 "id" = Some (JStr (pretty t1))
  /\ prop p2 "id" = Some (JStr (pretty t2))
  /\ (forall k, k <> "id" -> prop p1 k = m !! k /\ prop p2 k = m !! k)
  /\ (prop p1 "id" <> prop p2 "id" <-> t1 <> t2).
Proof.
  intros E Ha Hn. cbv zeta. unfold exec.
  rewrite (import_project _ _ w E Ha Hn). cbn [snd].
  rewrite (import_project _ _ _ E Ha Hn).
  cbn [snd appended projects localStorage clock reads Nat.add].
  split; [reflexivity|].
  split; [apply lookup_insert_eq|].
  split; [rewrite <- app_assoc; reflexivity|].
  unfold importedProject. cbn [prop].
  rewrite !lookup_insert_eq.
  split; [reflexivity|]. split; [reflexivity|].
  split.
  - intros k Hk. rewrite !lookup_insert_ne by congruence. split; reflexivity.
  - split.
    + intros Hd Ht. apply Hd. rewrite Ht. reflexivity.
    + intros Ht Hd. apply Ht. injection Hd as Hd.
      apply (inj pretty) in Hd. exact Hd.
Qed.


(** C7. A file that is malformed, or parses to a value the handler
    does not accept (for import: neither an array nor an object with
    truthy [apus] and [name]; for restore: not an array), leaves the
    store and the persisted document as they were and ends with an
    error alert; the handler itself returns normally. *)
Theorem rejected_file_keeps_store text w :
  (rejected recognizedImport (JSON_parse text) = true ->
     let w1 := exec (import (Some text)) w in
     result (import (Some text)) w = Return tt
     /\ projects w1 = projects w
     /\ localStorage w1 = localStorage w
     /\ exists msg, alerts w1 = alerts w ++ [msg] /\ isErrorMessage msg = true)
  /\ (rejected recognizedBackup (JSON_parse text) = true ->
      let w1 := exec (restore (Some text) true) w in
      result (restore (Some text) true) w = Return tt
      /\ projects w1 = projects w
      /\ localStorage w1 = localStorage w
      /\ exists msg, alerts w1 = alerts w ++ [msg] /\ isErrorMessage msg = true).
Proof.
  split; intros R; cbv zeta; unfold exec, result.
  - destruct (import_rejected text w R) as (msg & entries & Hm & ->).
    cbn [fst snd reported projects localStorage alerts].
    repeat split. exists msg. split; [reflexivity | exact Hm].
  - destruct (restore_rejected text w R) as (msg & entries & Hm & ->).
    cbn [fst snd reported projects localStorage alerts].
    repeat split. exists msg. split; [reflexivity | exact Hm].
Qed.

(** C8. When the persisted document does not parse, the load effect
    returns normally, the store keeps its initial empty list, the
    storage is left as it was, and, the document being a non-empty
    text, the failure is written to the console. *)
Theorem load_corrupt_starts_empty storage clk saved :
  storage !! STORAGE_KEY = Some saved ->
  JSON_parse saved = None ->
  let w0 := initialWorld storage clk in
  let w1 := exec (loadProjects JSON_parse) w0 in
  result (loadProjects JSON_parse) w0 = Return tt
  /\ projects w1 = []
  /\ localStorage w1 = storage
  /\ (saved <> "" ->
      console w1 = [ErrorWith "Error loading projects" SyntaxError]).
Proof.
  intros Hs E. cbv zeta. unfold exec, result.
  destruct (String.eqb_spec saved "") as [->|Hne].
  - rewrite (loadProjects_blank (initialWorld storage clk) Hs).
    repeat split. intros C. contradiction.
  - rewrite (loadProjects_corrupt saved (initialWorld storage clk) Hs Hne E).
    repeat split.
Qed.

(** C10. An object whose [name] is the empty string, or whose [apus]
    is present but falsy, is not imported as a project: it reaches the
    unrecognized-format branch, which only raises the alert. *)
Theorem falsy_fields_not_a_project text m w :
  JSON_parse text = Some (JObj m) ->
  (m !! "name" = Some (JStr "")
   \/ exists a, m !! "apus" = Some a /\ truthy (Some a) = false) ->
  let w1 := exec (import (Some text)) w in
  import (Some text) w = (Return tt, reported MSG_UNRECOGNIZED [] w)
  /\ projects w1 = projects w
  /\ localStorage w1 = localStorage w
  /\ alerts w1 = alerts w ++ [MSG_UNRECOGNIZED].
Proof.
  intros E H. cbv zeta.
  assert (import (Some text) w = (Return tt, reported MSG_UNRECOGNIZED [] w)) as R.
  { unfold handleFileChange, try_catch, bind.
    rewrite (parse_ok _ _ _ E). cbn [get prop ret].
    destruct H as [Hn | (a & Ha & Hf)].
    - destruct (truthy (m !! "apus")) eqn:Ta.
      + cbn [get prop ret]. rewrite Hn. cbn [truthy String.eqb negb].
        unfold alert, reported. rewrite app_nil_r. reflexivity.
      + unfold alert, reported. rewrite app_nil_r. reflexivity.
    - rewrite Ha, Hf. unfold alert, reported. rewrite app_nil_r. reflexivity. }
  unfold exec. rewrite R. repeat split.
Qed.
(** *** Committing the editor draft *)

Lemma Array_map_traverse (f : json -> M json) (g : json -> outcome json) l w :
  (forall x w0, f x w0 = (g x, w0)) ->
  Array_map f l w = (traverse g l, w).
Proof.
  intros Hf. induction l as [|x l IH]; cbn [Array_map traverse].
  - reflexivity.
  - unfold bind at 1. rewrite Hf.
    destruct (g x) as [y|e|]; try reflexivity.
    unfold bind at 1. rewrite IH.
    destruct (traverse g l) as [ys|e|]; reflexivity.
Qed.

Lemma traverse_swap_no_match target replacement l :
  Forall (fun item => strict_eq (prop item "id") target = false) l ->
  traverse (swapById target replacement) l = Return l
  \/ traverse (swapById target replacement) l = Throw TypeError.
Proof.
  induction 1 as [|x l Hx Hl IH]; cbn [traverse].
  - left. reflexivity.
  - destruct x as [|b|n|t|xs|m]; cbn [swapById]; [right; reflexivity|..];
      rewrite Hx; destruct IH as [-> | ->]; [left|right|left|right|left|right|left|right|left|right];
      reflexivity.
Qed.

Lemma traverse_swap target replacement l :
  traverse (swapById target replacement) l = Throw TypeError
  \/ exists ys,
       traverse (swapById target replacement) l = Return ys
       /\ Forall2 (fun p p' =>
                     p' = p
                     \/ (p' = replacement /\ strict_eq (prop p "id") target = true))
                  l ys.
Proof.
  induction l as [|x l IH]; cbn [traverse].
  - right. exists []. split; [reflexivity | constructor].
  - assert (swapById target replacement x = Throw TypeError
            \/ exists y, swapById target replacement x = Return y
                 /\ (y = x \/ (y = replacement
                               /\ strict_eq (prop x "id") target = true))) as Hx.
    { destruct x as [|b|n|t|xs|m]; cbn [swapById]; [left; reflexivity|..];
        right; eexists; (split; [reflexivity|]);
        match goal with
        | |- context [strict_eq ?u ?v] =>
            destruct (strict_eq u v); [right; split; reflexivity | left; reflexivity]
        end. }
    destruct Hx as [-> | (y & -> & Hy)]; [left; reflexivity|].
    destruct IH as [-> | (ys & -> & Hys)]; [left; reflexivity|].
    right. exists (y :: ys). split; [reflexivity|]. constructor; assumption.
Qed.

Lemma swapDraft_pure draft eid (x : json) w0 :
  bind (get x "id") (fun iid =>
    ret (if strict_eq iid (Some (JStr eid)) then draft else x)) w0
  = (swapById (Some (JStr eid)) draft x, w0).
Proof. destruct x; reflexivity. Qed.

Lemma swapProject_pure updated (x : json) w0 :
  bind (get x "id") (fun pid =>
    ret (if strict_eq pid (prop updated "id") then updated else x)) w0
  = (swapById (prop updated "id") updated x, w0).
Proof. destruct x; reflexivity. Qed.

Lemma saveProjectState_none apus w :
  currentProject w = None ->
  saveProjectState JSON_stringify apus w = (Return tt, w).
Proof.
  intros Hc. unfold saveProjectState. unfold bind at 1. rewrite Hc. reflexivity.
Qed.

Lemma saveProjectState_falsy apus w cp :
  currentProject w = Some cp ->
  truthy (Some cp) = false ->
  saveProjectState JSON_stringify apus w = (Return tt, w).
Proof.
  intros Hc Ht. unfold saveProjectState. unfold bind at 1. rewrite Hc, Ht.
  reflexivity.
Qed.

Lemma saveProjectState_run apus w cp :
  currentProject w = Some cp ->
  truthy (Some cp) = true ->
  let up := updatedProject cp apus (clock w (reads w)) in
  saveProjectState JSON_stringify apus w =
    match traverse (swapById (prop up "id") up) (projects w) with
    | Return ps => (Return tt, committed JSON_stringify up apus ps w)
    | Throw e => (Throw e, staged up apus w)
    | IllTyped => (IllTyped, staged up apus w)
    end.
Proof.
  intros Hc Ht. cbv zeta.
  unfold saveProjectState. unfold bind at 1. rewrite Hc, Ht. cbn [negb].
  unfold bind at 1. cbn [Date_now].
  unfold bind at 1. cbn [setCurrentProject].
  unfold bind at 1. cbn [setProjectAPUs].
  cbn [projects currentProject projectAPUs editingApuId currentEditorAPU
       showBackupModal localStorage alerts console clock reads].
  unfold updateProjects.
  cbn [projects currentProject projectAPUs editingApuId currentEditorAPU
       showBackupModal localStorage alerts console clock reads].
  fold (updatedProject cp apus (clock w (reads w))).
  set (up := updatedProject cp apus (clock w (reads w))).
  fold (staged up apus w).
  unfold bind at 1. unfold bind at 1.
  rewrite (Array_map_traverse _ (swapById (prop up "id") up) _ _
             (swapProject_pure up)).
  destruct (traverse (swapById (prop up "id") up) (projects w)); reflexivity.
Qed.

Lemma saveProjectState_spec apus w cp :
  currentProject w = Some cp ->
  truthy (Some cp) = true ->
  let up := updatedProject cp apus (clock w (reads w)) in
  saveProjectState JSON_stringify apus w = (Throw TypeError, staged up apus w)
  \/ exists ps,
       Forall2 (fun p p' =>
                  p' = p \/ (p' = up /\ strict_eq (prop p "id") (prop up "id") = true))
               (projects w) ps
       /\ saveProjectState JSON_stringify apus w =
            (Return tt, committed JSON_stringify up apus ps w).
Proof.
  intros Hc Ht. cbv zeta. rewrite (saveProjectState_run apus w cp Hc Ht).
  set (up := updatedProject cp apus (clock w (reads w))).
  destruct (traverse_swap (prop up "id") up (projects w)) as [-> | (ps & -> & Hps)].
  - left. reflexivity.
  - right. exists ps. split; [exact Hps | reflexivity].
Qed.
Lemma handleBackToList_skip w :
  commits w = false ->
  handleBackToList JSON_stringify w = (Return tt, closedEditor w).
Proof.
  unfold commits, handleBackToList. intros Hc.
  unfold bind at 1. unfold bind at 1.
  destruct (currentEditorAPU w) as [draft|]; [|reflexivity].
  destruct (editingApuId w) as [eid|]; [|reflexivity].
  rewrite Hc. reflexivity.
Qed.

Lemma handleBackToList_commit w draft eid :
  currentEditorAPU w = Some draft ->
  editingApuId w = Some eid ->
  commits w = true ->
  handleBackToList JSON_stringify w =
    match traverse (swapById (Some (JStr eid)) draft) (projectAPUs w) with
    | Return newAPUs =>
        match saveProjectState JSON_stringify newAPUs w with
        | (Return _, w') => (Return tt, closedEditor w')
        | (Throw e, w') => (Throw e, w')
        | (IllTyped, w') => (IllTyped, w')
        end
    | Throw e => (Throw e, w)
    | IllTyped => (IllTyped, w)
    end.
Proof.
  unfold commits, handleBackToList. intros Hd He Hc.
  unfold bind at 1. unfold bind at 1.
  rewrite Hd, He in *. rewrite Hc.
  unfold bind at 1.
  rewrite (Array_map_traverse _ (swapById (Some (JStr eid)) draft) _ _
             (swapDraft_pure draft eid)).
  destruct (traverse (swapById (Some (JStr eid)) draft) (projectAPUs w))
    as [newAPUs|e|]; reflexivity.
Qed.

Lemma Forall2_same_apus (l : list json) :
  Forall2 (fun p p' => prop p' "apus" = prop p "apus") l l.
Proof. induction l; constructor; [reflexivity | assumption]. Qed.

Lemma updatedProject_lookup m apus now k :
  prop (updatedProject (JObj m) apus now) k =
    if decide (k = "lastModified") then Some (JNum (num now))
    else if decide (k = "apus") then Some (JArr apus)
    else m !! k.
Proof.
  unfold updatedProject. cbn [prop object_spread].
  repeat case_decide; subst; simplify_map_eq; reflexivity.
Qed.

(** C9. When the draft is edited under its own id and that id matches
    no APU of the working list, committing it leaves the working list,
    the [apus] of the open project and the [apus] of every stored
    project as they were: the draft is dropped, not appended. *)
Theorem commit_of_absent_draft_is_dropped w :
  (forall d eid, currentEditorAPU w = Some d -> editingApuId w = Some eid ->
                 prop d "id" = Some (JStr eid)) ->
  (forall d, currentEditorAPU w = Some d ->
             Forall (fun item => strict_eq (prop item "id") (prop d "id") = false)
                    (projectAPUs w)) ->
  let w1 := exec (handleBackToList JSON_stringify) w in
  projectAPUs w1 = projectAPUs w
  /\ (forall m, currentProject w = Some (JObj m) ->
        m !! "apus" = Some (JArr (projectAPUs w)) ->
        exists m', currentProject w1 = Some (JObj m')
                   /\ m' !! "apus" = Some (JArr (projectAPUs w))
                   /\ forall k, k <> "lastModified" -> m' !! k = m !! k)
  /\ (currentProject w = None -> projects w1 = projects w)
  /\ (forall m, currentProject w = Some (JObj m) ->
        Forall (fun p => strict_eq (prop p "id") (m !! "id") = true ->
                         prop p "apus" = Some (JArr (projectAPUs w)))
               (projects w) ->
        Forall2 (fun p p' => prop p' "apus" = prop p "apus")
                (projects w) (projects w1)).
Proof.
  intros Hkey Habsent. cbv zeta. unfold exec.
  destruct (commits w) eqn:Hc.
  2:{ rewrite (handleBackToList_skip w Hc). cbn [snd closedEditor projectAPUs
        currentProject projects].
      split; [reflexivity|]. split.
      - intros m Hm Ha. exists m. split; [exact Hm|]. split; [exact Ha|].
        intros k _. reflexivity.
      - split; [reflexivity|]. intros m _ _. apply Forall2_same_apus. }
  pose proof Hc as Hc'. unfold commits in Hc'.
  destruct (currentEditorAPU w) as [draft|] eqn:Hd; [|discriminate Hc'].
  destruct (editingApuId w) as [eid|] eqn:He; [|discriminate Hc'].
  clear Hc'.
  rewrite (handleBackToList_commit w draft eid Hd He Hc).
  specialize (Hkey draft eid eq_refl eq_refl).
  specialize (Habsent draft eq_refl). rewrite Hkey in Habsent.
  destruct (traverse_swap_no_match (Some (JStr eid)) draft (projectAPUs w) Habsent)
    as [-> | ->].
  2:{ cbn [snd]. split; [reflexivity|]. split.
      - intros m Hm Ha. exists m. split; [exact Hm|]. split; [exact Ha|].
        intros k _. reflexivity.
      - split; [reflexivity|]. intros m _ _. apply Forall2_same_apus. }
  destruct (currentProject w) as [cp|] eqn:Hcp.
  2:{ rewrite (saveProjectState_none _ w Hcp).
      cbn [snd closedEditor projectAPUs currentProject projects].
      split; [reflexivity|]. split; [intros m Hm; discriminate Hm|].
      split; [reflexivity|]. intros m Hm; discriminate Hm. }
  destruct (truthy (Some cp)) eqn:Ht.
  2:{ rewrite (saveProjectState_falsy _ w cp Hcp Ht).
      cbn [snd closedEditor projectAPUs currentProject projects].
      split; [reflexivity|]. split.
      - intros m Hm Ha. exists m. split; [rewrite Hcp; exact Hm|].
        split; [exact Ha|]. intros k _. reflexivity.
      - split; [intros C; discriminate C|].
        intros m _ _. apply Forall2_same_apus. }
  assert (forall m, Some cp = Some (JObj m) -> m !! "apus" = Some (JArr (projectAPUs w)) ->
          exists m', Some (updatedProject cp (projectAPUs w) (clock w (reads w)))
                       = Some (JObj m')
                     /\ m' !! "apus" = Some (JArr (projectAPUs w))
                     /\ forall k, k <> "lastModified" -> m' !! k = m !! k) as Hopen.
  { intros m [= ->] Ha. eexists. split; [reflexivity|]. split.
    - simplify_map_eq. reflexivity.
    - intros k Hk. rewrite lookup_insert_ne by congruence.
      destruct (decide (k = "apus")) as [->|Hk'].
      + rewrite lookup_insert_eq. cbn [object_spread]. symmetry. exact Ha.
      + rewrite lookup_insert_ne by congruence. reflexivity. }
  destruct (saveProjectState_spec (projectAPUs w) w cp Hcp Ht) as [-> | (ps & Hps & ->)].
  - cbn [snd staged projectAPUs currentProject projects].
    split; [reflexivity|]. split; [exact Hopen|].
    split; [intros C; discriminate C|].
    intros m _ _. apply Forall2_same_apus.
  - cbn [snd committed closedEditor projectAPUs currentProject projects].
    split; [reflexivity|]. split; [exact Hopen|].
    split; [intros C; discriminate C|].
    intros m [= ->] Hsync.
    revert Hsync. induction Hps as [|p p' l l' Hp Hl IH]; intros Hsync.
    + constructor.
    + apply Forall_cons in Hsync as [Hp0 Hl0].
      constructor; [|apply IH; exact Hl0].
      destruct Hp as [-> | [-> Hid]]; [reflexivity|].
      rewrite updatedProject_lookup in Hid. cbn in Hid.
      rewrite (Hp0 Hid). rewrite updatedProject_lookup. reflexivity.
Qed.
End StoreFacts.

(** ** The statements at sample inputs *)

(** C3, as stated, fails: an array whose element is not Project-shaped
    takes the replacement path all the same and evicts the stored
    project. *)
Lemma restore_accepts_unshaped_array :
  sampleParse "[7]" = Some (JArr [JNum (num 7)])
  /\ forallb projectShaped [JNum (num 7)] = false
  /\ projects sampleWorld = [JObj storedProject]
  /\ projects (exec (handleImportBackup sampleParse sampleStringify (Some "[7]") true)
                    sampleWorld)
     = [JNum (num 7)].
Proof. repeat split; vm_compute; reflexivity. Qed.

Lemma restore_replaces_store_witness :
  sampleParse "[7]" = Some (JArr [JNum (num 7)])
  /\ rejected recognizedBackup (sampleParse "42") = true
  /\ projects (exec (handleImportBackup sampleParse sampleStringify (Some "[7]") true)
                    sampleWorld)
     = [JNum (num 7)]
  /\ projects (exec (handleImportBackup sampleParse sampleStringify (Some "42") true)
                    sampleWorld)
     = projects sampleWorld.
Proof.
  split; [reflexivity|]. split; [reflexivity|]. split.
  - exact (proj1 (proj1 (restore_replaces_store sampleParse sampleStringify
                           "[7]" sampleWorld) [JNum (num 7)] eq_refl)).
  - exact (proj1 (proj2 (restore_replaces_store sampleParse sampleStringify
                           "42" sampleWorld) eq_refl)).
Defined.

(** C4, as stated, fails twice over: an object carrying both fields,
    the name being empty, is not appended; and two imports of one file
    under equal clock readings append two projects with one and the
    same id. *)
Lemma import_needs_truthy_fields_and_distinct_readings :
  (sampleParse unnamedText = Some (JObj unnamed)
   /\ unnamed !! "apus" = Some (JArr [])
   /\ unnamed !! "name" = Some (JStr "")
   /\ projects (exec (handleFileChange sampleParse sampleStringify (Some unnamedText))
                     sampleWorld)
      = projects sampleWorld)
  /\ (let import := handleFileChange sampleParse sampleStringify (Some casaText) in
      let p := importedProject casa 1700000000000 in
      projects (exec import (exec import frozenWorld))
      = projects frozenWorld ++ [p; p]).
Proof. repeat split; vm_compute; reflexivity. Qed.

Lemma import_single_project_witness :
  sampleParse casaText = Some (JObj casa)
  /\ truthy (casa !! "apus") = true
  /\ truthy (casa !! "name") = true
  /\ projects (exec (handleFileChange sampleParse sampleStringify (Some casaText))
                    sampleWorld)
     = projects sampleWorld ++ [importedProject casa 1700000000000].
Proof.
  split; [reflexivity|]. split; [reflexivity|]. split; [reflexivity|].
  exact (proj1 (import_single_project sampleParse sampleStringify casaText casa
                  sampleWorld eq_refl eq_refl eq_refl)).
Defined.


Lemma rejected_file_keeps_store_witness :
  rejected recognizedImport (sampleParse "42") = true
  /\ rejected recognizedBackup (sampleParse "{") = true
  /\ projects (exec (handleFileChange sampleParse sampleStringify (Some "42"))
                    sampleWorld)
     = projects sampleWorld
  /\ projects (exec (handleImportBackup sampleParse sampleStringify (Some "{") true)
                    sampleWorld)
     = projects sampleWorld.
Proof.
  split; [reflexivity|]. split; [reflexivity|]. split.
  - exact (proj1 (proj2 (proj1 (rejected_file_keeps_store sampleParse
                                  sampleStringify "42" sampleWorld) eq_refl))).
  - exact (proj1 (proj2 (proj2 (rejected_file_keeps_store sampleParse
                                  sampleStringify "{" sampleWorld) eq_refl))).
Defined.

Lemma load_corrupt_starts_empty_witness :
  ({[ STORAGE_KEY := "{" ]} : gmap string string) !! STORAGE_KEY = Some "{"
  /\ sampleParse "{" = None
  /\ projects (exec (loadProjects sampleParse)
                    (initialWorld {[ STORAGE_KEY := "{" ]} (fun _ => 0%Z)))
     = [].
Proof.
  split; [reflexivity|]. split; [reflexivity|].
  exact (proj1 (proj2 (load_corrupt_starts_empty sampleParse
                         {[ STORAGE_KEY := "{" ]} (fun _ => 0%Z) "{"
                         eq_refl eq_refl))).
Defined.

Lemma falsy_fields_not_a_project_witness :
  sampleParse unnamedText = Some (JObj unnamed)
  /\ unnamed !! "name" = Some (JStr "")
  /\ projects (exec (handleFileChange sampleParse sampleStringify (Some unnamedText))
                    sampleWorld)
     = projects sampleWorld.
Proof.
  split; [reflexivity|]. split; [reflexivity|].
  exact (proj1 (proj2 (falsy_fields_not_a_project sampleParse sampleStringify
                         unnamedText unnamed sampleWorld eq_refl
                         (or_introl eq_refl)))).
Defined.

Lemma commit_of_absent_draft_is_dropped_witness :
  projectAPUs (exec (handleBackToList sampleStringify) orphanDraftWorld)
  = projectAPUs orphanDraftWorld.
Proof.
  refine (proj1 (commit_of_absent_draft_is_dropped sampleStringify
                   orphanDraftWorld _ _)).
  - intros d eid [= <-] [= <-]. reflexivity.
  - intros d [= <-]. repeat constructor.
Defined.

(** ** Further properties of the cost engine *)

Section CostEngineMore.
Local Open Scope Qc_scope.

Lemma Sigma_Permutation (l l' : list Qc) :
  Permutation l l' -> Sigma l = Sigma l'.
Proof.
  induction 1 as [|x l l' _ IH|x y l|l l' l'' _ IH1 _ IH2]; cbn [Sigma].
  - reflexivity.
  - rewrite IH. reflexivity.
  - to_Qc. ring.
  - rewrite IH1. exact IH2.
Qed.

(** X1. Reordering the resources of an APU, or the APUs of a project, does
    not change the unit price or the project total (exact
    arithmetic). *)
Theorem prices_ignore_order :
  (forall (apu : APU.t Qc) (rs : list (Resource.t Qc)),
     Permutation (APU.resources apu) rs ->
     calculateUnitPrice (withResources rs apu) = calculateUnitPrice apu)
  /\ (forall l l' : list (APU.t Qc),
       Permutation l l' ->
       calculateTotalFromList l' = calculateTotalFromList l).
Proof.
  split.
  - intros apu rs P. rewrite !calculateUnitPrice_unfold.
    unfold directCostOf, withResources.
    cbn [APU.resources APU.indirectsPercentage APU.profitPercentage].
    rewrite (Sigma_Permutation _ _ (Permutation_map lineCost P)). reflexivity.
  - intros l l' P. rewrite !calculateTotalFromList_Sigma.
    symmetry. apply Sigma_Permutation. apply Permutation_map. exact P.
Qed.

Lemma prices_ignore_order_witness :
  Permutation (APU.resources (N := Qc) workedExample)
              (rev (APU.resources workedExample))
  /\ calculateUnitPrice (withResources (rev (APU.resources workedExample)) workedExample)
     = calculateUnitPrice (N := Qc) workedExample.
Proof.
  split; [apply Permutation_rev|].
  apply (proj1 prices_ignore_order). apply Permutation_rev.
Defined.

Lemma Sigma_nonneg (l : list Qc) :
  Forall (fun x => 0 <= x) l -> 0 <= Sigma l.
Proof.
  induction 1 as [|x l Hx _ IH]; cbn [Sigma].
  - rewrite num_0. apply Qcle_refl.
  - to_Qc. apply Qcplus_nonneg_nonneg; assumption.
Qed.

Lemma ratio_nonneg (x : Qc) : 0 <= x -> 0 <= x / num 100.
Proof.
  intros Hx.
  assert (x / num 100 = x * Q2Qc (1 # 100)) as ->.
  { assert (Q2Qc (1 # 100) = 1 / num 100) as ->
      by (apply Qc_is_canon; reflexivity).
    field. apply num_100_nonzero. }
  apply Qcmult_nonneg_nonneg; [exact Hx|]. discriminate.
Qed.

(** X2. With non-negative prices, quantities and percentages the direct
    cost is non-negative and the unit price is at least the direct
    cost: markups never lower a price (exact arithmetic). *)
Theorem unit_price_at_least_direct_cost (apu : APU.t Qc) :
  Forall (fun r => 0 <= Resource.price r /\ 0 <= Resource.quantity r)
         (APU.resources apu) ->
  0 <= APU.indirectsPercentage apu ->
  0 <= APU.profitPercentage apu ->
  0 <= directCostOf apu /\ directCostOf apu <= calculateUnitPrice apu.
Proof.
  intros Hrs Hi Hp.
  assert (0 <= directCostOf apu) as Hd.
  { unfold directCostOf. apply Sigma_nonneg.
    induction Hrs as [|r rs [Hpr Hq] _ IH]; cbn [map]; constructor.
    - unfold lineCost. to_Qc. apply Qcmult_nonneg_nonneg; assumption.
    - exact IH. }
  split; [exact Hd|].
  rewrite calculateUnitPrice_unfold. to_Qc.
  pose proof (ratio_nonneg _ Hi) as Ri. pose proof (ratio_nonneg _ Hp) as Rp.
  set (d := directCostOf apu) in *.
  set (i := APU.indirectsPercentage apu / num 100) in *.
  set (p := APU.profitPercentage apu / num 100) in *.
  assert (0 <= d * i) as Hdi by (apply Qcmult_nonneg_nonneg; assumption).
  assert (0 <= (d + d * i) * p) as Hdp.
  { apply Qcmult_nonneg_nonneg; [|assumption].
    apply Qcplus_nonneg_nonneg; assumption. }
  apply Qcle_minus_iff.
  assert (d + d * i + (d + d * i) * p + - d = d * i + (d + d * i) * p) as -> by ring.
  apply Qcplus_nonneg_nonneg; assumption.
Qed.

Lemma unit_price_at_least_direct_cost_witness :
  directCostOf (N := Qc) workedExample <= calculateUnitPrice workedExample.
Proof.
  refine (proj2 (unit_price_at_least_direct_cost workedExample _ _ _)).
  - repeat constructor; discriminate.
  - discriminate.
  - discriminate.
Defined.
End CostEngineMore.

Section CostEngineCompose.
Context {N : Type} `{Number N}.
Local Open Scope num_scope.

(** In any arithmetic, IEEE doubles included, the total of a list
    extended by one APU is the total of the list plus that APU's unit
    price times its quantity, and the empty list totals 0. *)
Theorem calculateTotalFromList_snoc (l : list (APU.t N)) (apu : APU.t N) :
  calculateTotalFromList (l ++ [apu])
  = calculateTotalFromList l + calculateUnitPrice apu * APU.quantity apu
  /\ calculateTotalFromList (@nil (APU.t N)) = num 0.
Proof.
  split; [|reflexivity].
  unfold calculateTotalFromList, reduce. rewrite fold_left_app. reflexivity.
Qed.
End CostEngineCompose.

Section CostEngineSplit.
Local Open Scope Qc_scope.

(** X3. In exact arithmetic the total of two lists put together is the sum
    of their totals; so an APU list split by any criterion (category,
    page) totals the same. *)
Theorem calculateTotalFromList_app (l1 l2 : list (APU.t Qc)) :
  calculateTotalFromList (l1 ++ l2)
  = calculateTotalFromList l1 + calculateTotalFromList l2.
Proof.
  rewrite !calculateTotalFromList_Sigma, map_app. apply Sigma_app.
Qed.
End CostEngineSplit.

(** ** Invariants of the handlers *)

Section Combinators.
Context {P : World -> Prop}.

Lemma preserves_ret {A : Type} (a : A) : preserves P (ret a).
Proof. intros w Hw. exact Hw. Qed.

Lemma preserves_throw {A : Type} (e : exn) : preserves P (@throw A e).
Proof. intros w Hw. exact Hw. Qed.

Lemma preserves_illTyped {A : Type} : preserves P (@illTyped A).
Proof. intros w Hw. exact Hw. Qed.

Lemma preserves_read : preserves P (fun w : World => (Return w, w)).
Proof. intros w Hw. exact Hw. Qed.

Lemma preserves_bind {A B : Type} (c : M A) (k : A -> M B) :
  preserves P c -> (forall a, preserves P (k a)) -> preserves P (bind c k).
Proof.
  intros Hc Hk w Hw. unfold bind. specialize (Hc w Hw).
  destruct (c w) as [[a|e|] w']; cbn [snd] in *; [|exact Hc|exact Hc].
  apply Hk. exact Hc.
Qed.

Lemma preserves_try_catch {A : Type} (c : M A) (h : exn -> M A) :
  preserves P c -> (forall e, preserves P (h e)) -> preserves P (try_catch c h).
Proof.
  intros Hc Hh w Hw. unfold try_catch. specialize (Hc w Hw).
  destruct (c w) as [[a|e|] w']; cbn [snd] in *; [exact Hc| |exact Hc].
  apply Hh. exact Hc.
Qed.

Lemma preserves_get (v : json) (k : string) : preserves P (get v k).
Proof. destruct v; intros w Hw; exact Hw. Qed.

Lemma preserves_Array_map (f : json -> M json) (l : list json) :
  (forall x, preserves P (f x)) -> preserves P (Array_map f l).
Proof.
  intros Hf. induction l as [|x l IH]; cbn [Array_map].
  - apply preserves_ret.
  - apply preserves_bind; [apply Hf|]. intros y.
    apply preserves_bind; [exact IH|]. intros ys. apply preserves_ret.
Qed.

Lemma preserves_Array_filter (f : json -> M bool) (l : list json) :
  (forall x, preserves P (f x)) -> preserves P (Array_filter f l).
Proof.
  intros Hf. induction l as [|x l IH]; cbn [Array_filter].
  - apply preserves_ret.
  - apply preserves_bind; [apply Hf|]. intros y.
    apply preserves_bind; [exact IH|]. intros ys. apply preserves_ret.
Qed.

Lemma preserves_Array_find (f : json -> M bool) (l : list json) :
  (forall x, preserves P (f x)) -> preserves P (Array_find f l).
Proof.
  intros Hf. induction l as [|x l IH]; cbn [Array_find].
  - apply preserves_ret.
  - apply preserves_bind; [apply Hf|]. intros [|]; [apply preserves_ret | exact IH].
Qed.

Lemma preserves_updateProjects (u : list json -> M (list json)) :
  (forall prev, preserves P (u prev)) ->
  (forall l, preserves P (setProjects l)) ->
  preserves P (updateProjects u).
Proof.
  intros Hu Hs w Hw. unfold updateProjects.
  apply (preserves_bind (u (projects w)) setProjects (Hu _) Hs w Hw).
Qed.
End Combinators.

(** Solves [preserves] goals by following the structure of the code. *)
Ltac step_preserves :=
  repeat lazymatch goal with
  | |- preserves _ (bind _ _) => apply preserves_bind; [|intros ?]
  | |- preserves _ (try_catch _ _) => apply preserves_try_catch; [|intros ?]
  | |- preserves _ (ret _) => apply preserves_ret
  | |- preserves _ (throw _) => apply preserves_throw
  | |- preserves _ illTyped => apply preserves_illTyped
  | |- preserves _ (get _ _) => apply preserves_get
  | |- preserves _ (Array_map _ _) => apply preserves_Array_map; intros ?
  | |- preserves _ (Array_filter _ _) => apply preserves_Array_filter; intros ?
  | |- preserves _ (Array_find _ _) => apply preserves_Array_find; intros ?
  | |- preserves _ (fun w => (Return w, w)) => apply preserves_read
  end.

Section PersistedFacts.
Variable JSON_parse : string -> option json.
Variable JSON_stringify : json -> string.

Local Abbreviation P := (persisted JSON_stringify).

Lemma persisted_untouched {A : Type} (c : M A) :
  storeUntouched c -> preserves P c.
Proof.
  intros Hc w Hw. unfold persisted in *. destruct (Hc w) as [-> ->]. exact Hw.
Qed.

Lemma persisted_write (C : list json -> M (list json)) :
  (forall prev, preserves P (C prev)) ->
  preserves P
    (updateProjects (fun prev =>
       bind (C prev) (fun updated =>
         bind (localStorage_setItem STORAGE_KEY (JSON_stringify (JArr updated)))
              (fun _ => ret updated)))).
Proof.
  intros HC w Hw. unfold updateProjects, bind.
  specialize (HC (projects w) w Hw).
  destruct (C (projects w) w) as [[u|e|] w1]; cbn [snd] in *;
    [|exact HC|exact HC].
  unfold persisted. cbn [localStorage projects]. apply lookup_insert_eq.
Qed.

Lemma persisted_appendProject (p : json) :
  preserves P (appendProject JSON_stringify p).
Proof.
  intros w _. unfold appendProject, updateProjects, bind, persisted.
  cbn [snd localStorage_setItem setProjects ret localStorage projects].
  apply lookup_insert_eq.
Qed.

(** Closes a [preserves] goal about the persisted document by
    following the structure of the code. *)
Ltac step_persisted :=
  repeat lazymatch goal with
  | |- preserves _ (appendProject _ _) => apply persisted_appendProject
  | |- preserves _ (updateProjects _) => apply persisted_write; intros ?
  | |- preserves _ (bind _ _) => apply preserves_bind; [|intros ?]
  | |- preserves _ (try_catch _ _) => apply preserves_try_catch; [|intros ?]
  | |- preserves _ (ret _) => apply preserves_ret
  | |- preserves _ (throw _) => apply preserves_throw
  | |- preserves _ illTyped => apply preserves_illTyped
  | |- preserves _ (get _ _) => apply preserves_get
  | |- preserves _ (Array_map _ _) => apply preserves_Array_map; intros ?
  | |- preserves _ (Array_filter _ _) => apply preserves_Array_filter; intros ?
  | |- preserves _ (Array_find _ _) => apply preserves_Array_find; intros ?
  | |- preserves _ (fun w => (Return w, w)) => apply preserves_read
  | |- preserves _ (setCurrentProject _) => apply persisted_untouched; intros ?; split; reflexivity
  | |- preserves _ (setProjectAPUs _) => apply persisted_untouched; intros ?; split; reflexivity
  | |- preserves _ (setEditingApuId _) => apply persisted_untouched; intros ?; split; reflexivity
  | |- preserves _ (setCurrentEditorAPU _) => apply persisted_untouched; intros ?; split; reflexivity
  | |- preserves _ (setShowBackupModal _) => apply persisted_untouched; intros ?; split; reflexivity
  | |- preserves _ (alert _) => apply persisted_untouched; intros ?; split; reflexivity
  | |- preserves _ (console_error _) => apply persisted_untouched; intros ?; split; reflexivity
  | |- preserves _ Date_now => apply persisted_untouched; intros ?; split; reflexivity
  end.

Lemma persisted_saveProjectState (apus : list json) :
  preserves P (saveProjectState JSON_stringify apus).
Proof.
  unfold saveProjectState. apply preserves_bind; [apply preserves_read|].
  intros w0. destruct (currentProject w0) as [cp|]; [|apply preserves_ret].
  destruct (negb (truthy (Some cp))); step_persisted.
Qed.

Lemma persisted_handleBackToList :
  preserves P (handleBackToList JSON_stringify).
Proof.
  unfold handleBackToList. apply preserves_bind; [apply preserves_read|].
  intros w0. apply preserves_bind; [|intros ?; step_persisted].
  destruct (currentEditorAPU w0) as [draft|]; [|apply preserves_ret].
  destruct (editingApuId w0) as [eid|]; [|apply preserves_ret].
  destruct (truthy (Some draft) && negb (String.eqb eid ""));
    [|apply preserves_ret].
  apply preserves_bind; [step_preserves|].
  intros newAPUs. apply persisted_saveProjectState.
Qed.

Lemma persisted_handleImportBackup file confirmed :
  preserves P (handleImportBackup JSON_parse JSON_stringify file confirmed).
Proof.
  unfold handleImportBackup. destruct file as [text|]; [|apply preserves_ret].
  destruct (negb confirmed); [apply preserves_ret|].
  apply preserves_try_catch; [|intros e; step_persisted].
  apply preserves_bind.
  { unfold parse. destruct (JSON_parse text); step_preserves. }
  intros v. destruct v; try (step_persisted; fail).
  intros w _. unfold bind, persisted.
  cbn [snd setProjects localStorage_setItem alert setShowBackupModal
       localStorage projects].
  apply lookup_insert_eq.
Qed.

Lemma persisted_handleFileChange file :
  preserves P (handleFileChange JSON_parse JSON_stringify file).
Proof.
  unfold handleFileChange. destruct file as [text|]; [|apply preserves_ret].
  apply preserves_try_catch; [|intros e; step_persisted].
  apply preserves_bind.
  { unfold parse. destruct (JSON_parse text); step_preserves. }
  intros v. apply preserves_bind; [apply preserves_get|]. intros apus.
  apply preserves_bind.
  { destruct (truthy apus); step_preserves. }
  intros [|]; [step_persisted|].
  destruct v; step_persisted.
Qed.

Lemma persisted_handleConfirmCreateProject d :
  preserves P (handleConfirmCreateProject JSON_stringify d).
Proof.
  unfold handleConfirmCreateProject.
  destruct (blank (newProjectName d)); step_persisted.
Qed.

Lemma persisted_handleConfirmDeleteProject d :
  preserves P (handleConfirmDeleteProject JSON_stringify d).
Proof.
  unfold handleConfirmDeleteProject.
  destruct (projectToDelete d) as [target|]; [|apply preserves_ret].
  destruct (negb (truthy (Some target))); step_persisted.
Qed.

Lemma persisted_handleCreateItem :
  preserves P (handleCreateItem JSON_stringify).
Proof.
  unfold handleCreateItem. apply preserves_bind; [apply preserves_read|].
  intros w0. apply preserves_bind; [step_persisted|]. intros now.
  apply preserves_bind; [apply persisted_saveProjectState|]. intros _.
  step_persisted.
Qed.

Lemma persisted_handleConfirmDeleteApu d :
  preserves P (handleConfirmDeleteApu JSON_stringify d).
Proof.
  unfold handleConfirmDeleteApu. apply preserves_bind; [apply preserves_read|].
  intros w0. destruct (apuToDelete d) as [target|]; [|apply preserves_ret].
  destruct (negb (truthy (Some target))); [apply preserves_ret|].
  apply preserves_bind; [step_preserves|]. intros newAPUs.
  apply preserves_bind; [apply persisted_saveProjectState|]. intros _.
  apply preserves_bind; [|intros ?; apply preserves_ret].
  destruct (strict_eq (stringOrNull (editingApuId w0)) (prop target "id"));
    step_persisted.
Qed.

Lemma persisted_navigation project id field value rs :
  preserves P (handleOpenProject project)
  /\ preserves P handleCloseProject
  /\ preserves P (handleEditItem id)
  /\ preserves P (updateField field value)
  /\ preserves P (updateResources rs).
Proof.
  split; [|split; [|split; [|split]]].
  - unfold handleOpenProject. apply preserves_bind; [step_persisted|]. intros _.
    apply preserves_bind; [apply preserves_get|]. intros apus.
    apply preserves_bind; [|intros _; step_persisted].
    destruct apus as [[]|]; step_persisted.
  - unfold handleCloseProject. step_persisted.
  - unfold handleEditItem. apply preserves_bind; [apply preserves_read|].
    intros w0. apply preserves_bind; [step_preserves|].
    intros [item|]; [|apply preserves_ret].
    destruct (truthy (Some item)); step_persisted.
  - apply persisted_untouched. intros w. split; reflexivity.
  - apply persisted_untouched. intros w. split; reflexivity.
Qed.
(** X4. Whatever a handler does, and however it ends, a persisted
    document that was the serialization of the stored list still is. *)
Theorem handlers_keep_document_in_step :
  (forall file confirmed,
     preserves P (handleImportBackup JSON_parse JSON_stringify file confirmed))
  /\ (forall file, preserves P (handleFileChange JSON_parse JSON_stringify file))
  /\ (forall d, preserves P (handleConfirmCreateProject JSON_stringify d))
  /\ (forall d, preserves P (handleConfirmDeleteProject JSON_stringify d))
  /\ (forall apus, preserves P (saveProjectState JSON_stringify apus))
  /\ preserves P (handleBackToList JSON_stringify)
  /\ preserves P (handleCreateItem JSON_stringify)
  /\ (forall d, preserves P (handleConfirmDeleteApu JSON_stringify d))
  /\ (forall project, preserves P (handleOpenProject project))
  /\ preserves P handleCloseProject
  /\ (forall id, preserves P (handleEditItem id))
  /\ (forall field value, preserves P (updateField field value))
  /\ (forall rs, preserves P (updateResources rs)).
Proof.
  repeat match goal with |- _ /\ _ => split end.
  - apply persisted_handleImportBackup.
  - apply persisted_handleFileChange.
  - apply persisted_handleConfirmCreateProject.
  - apply persisted_handleConfirmDeleteProject.
  - apply persisted_saveProjectState.
  - apply persisted_handleBackToList.
  - apply persisted_handleCreateItem.
  - apply persisted_handleConfirmDeleteApu.
  - intros project.
    exact (proj1 (persisted_navigation project "" "" JNull [])).
  - exact (proj1 (proj2 (persisted_navigation JNull "" "" JNull []))).
  - intros id.
    exact (proj1 (proj2 (proj2 (persisted_navigation JNull id "" JNull [])))).
  - intros field value.
    exact (proj1 (proj2 (proj2 (proj2
             (persisted_navigation JNull "" field value []))))).
  - intros rs.
    exact (proj2 (proj2 (proj2 (proj2
             (persisted_navigation JNull "" "" JNull rs))))).
Qed.



End PersistedFacts.

Section EditorFacts.
Variable JSON_parse : string -> option json.
Variable JSON_stringify : json -> string.

Lemma keyed_untouched {A : Type} (c : M A) :
  editorUntouched c -> preserves editorKeyed c.
Proof.
  intros Hc w Hw draft eid. destruct (Hc w) as [-> ->]. apply Hw.
Qed.

Lemma keyed_no_id (i : option string) :
  i = None -> preserves editorKeyed (setEditingApuId i).
Proof. intros -> w _ draft eid _ He. discriminate He. Qed.

Lemma keyed_no_draft : preserves editorKeyed (setCurrentEditorAPU None).
Proof. intros w _ draft eid Hd. discriminate Hd. Qed.

(** Opening the editor on an item under that item's id. *)
Lemma keyed_open (item : json) (id : string) :
  prop item "id" = Some (JStr id) ->
  preserves editorKeyed
    (bind (setCurrentEditorAPU (Some item)) (fun _ => setEditingApuId (Some id))).
Proof.
  intros Hid w _ draft eid. unfold bind.
  cbn [setCurrentEditorAPU setEditingApuId snd currentEditorAPU editingApuId].
  intros [= <-] [= <-]. exact Hid.
Qed.

(** Follows the structure of the code for the invariant of the
    editor. *)
Ltac step_keyed :=
  repeat lazymatch goal with
  | |- preserves _ (bind (setCurrentEditorAPU (Some _)) _) => fail
  | |- preserves _ (bind _ _) => apply preserves_bind; [|intros ?]
  | |- preserves _ (try_catch _ _) => apply preserves_try_catch; [|intros ?]
  | |- preserves _ (ret _) => apply preserves_ret
  | |- preserves _ (throw _) => apply preserves_throw
  | |- preserves _ illTyped => apply preserves_illTyped
  | |- preserves _ (get _ _) => apply preserves_get
  | |- preserves _ (Array_map _ _) => apply preserves_Array_map; intros ?
  | |- preserves _ (Array_filter _ _) => apply preserves_Array_filter; intros ?
  | |- preserves _ (Array_find _ _) => apply preserves_Array_find; intros ?
  | |- preserves _ (fun w => (Return w, w)) => apply preserves_read
  | |- preserves _ (appendProject _ _) => apply keyed_untouched; intros ?; split; reflexivity
  | |- preserves _ (updateProjects _) =>
      apply preserves_updateProjects; [intros ?|intros ?]
  | |- preserves _ (setEditingApuId None) => apply keyed_no_id; reflexivity
  | |- preserves _ (setCurrentEditorAPU None) => apply keyed_no_draft
  | |- preserves _ (setProjects _) => apply keyed_untouched; intros ?; split; reflexivity
  | |- preserves _ (setCurrentProject _) => apply keyed_untouched; intros ?; split; reflexivity
  | |- preserves _ (setProjectAPUs _) => apply keyed_untouched; intros ?; split; reflexivity
  | |- preserves _ (setShowBackupModal _) => apply keyed_untouched; intros ?; split; reflexivity
  | |- preserves _ (localStorage_setItem _ _) => apply keyed_untouched; intros ?; split; reflexivity
  | |- preserves _ (localStorage_getItem _) => apply keyed_untouched; intros ?; split; reflexivity
  | |- preserves _ (alert _) => apply keyed_untouched; intros ?; split; reflexivity
  | |- preserves _ (console_error _) => apply keyed_untouched; intros ?; split; reflexivity
  | |- preserves _ Date_now => apply keyed_untouched; intros ?; split; reflexivity
  end.

Lemma keyed_saveProjectState (apus : list json) :
  preserves editorKeyed (saveProjectState JSON_stringify apus).
Proof.
  unfold saveProjectState. apply preserves_bind; [apply preserves_read|].
  intros w0. destruct (currentProject w0) as [cp|]; [|apply preserves_ret].
  destruct (negb (truthy (Some cp))); step_keyed.
Qed.

Lemma keyed_handleBackToList :
  preserves editorKeyed (handleBackToList JSON_stringify).
Proof.
  unfold handleBackToList. apply preserves_bind; [apply preserves_read|].
  intros w0. apply preserves_bind; [|intros ?; step_keyed].
  destruct (currentEditorAPU w0) as [draft|]; [|apply preserves_ret].
  destruct (editingApuId w0) as [eid|]; [|apply preserves_ret].
  destruct (truthy (Some draft) && negb (String.eqb eid ""));
    [|apply preserves_ret].
  apply preserves_bind; [step_keyed|].
  intros newAPUs. apply keyed_saveProjectState.
Qed.

Lemma keyed_handleImportBackup file confirmed :
  preserves editorKeyed (handleImportBackup JSON_parse JSON_stringify file confirmed).
Proof.
  unfold handleImportBackup. destruct file as [text|]; [|apply preserves_ret].
  destruct (negb confirmed); [apply preserves_ret|].
  apply preserves_try_catch; [|intros e; step_keyed].
  apply preserves_bind.
  { unfold parse. destruct (JSON_parse text); step_keyed. }
  intros v. destruct v; step_keyed.
Qed.

Lemma keyed_handleFileChange file :
  preserves editorKeyed (handleFileChange JSON_parse JSON_stringify file).
Proof.
  unfold handleFileChange. destruct file as [text|]; [|apply preserves_ret].
  apply preserves_try_catch; [|intros e; step_keyed].
  apply preserves_bind.
  { unfold parse. destruct (JSON_parse text); step_keyed. }
  intros v. apply preserves_bind; [apply preserves_get|]. intros apus.
  apply preserves_bind.
  { destruct (truthy apus); step_keyed. }
  intros [|]; [step_keyed|].
  destruct v; step_keyed.
Qed.

Lemma keyed_loadProjects :
  preserves editorKeyed (loadProjects JSON_parse).
Proof.
  unfold loadProjects. apply preserves_bind; [step_keyed|].
  intros [text|]; [|apply preserves_ret].
  destruct (negb (String.eqb text "")); [|apply preserves_ret].
  apply preserves_try_catch; [|intros e; step_keyed].
  apply preserves_bind.
  { unfold parse. destruct (JSON_parse text); step_keyed. }
  intros v. destruct v; step_keyed.
Qed.

Lemma keyed_handleConfirmCreateProject d :
  preserves editorKeyed (handleConfirmCreateProject JSON_stringify d).
Proof.
  unfold handleConfirmCreateProject.
  destruct (blank (newProjectName d)); step_keyed.
Qed.

Lemma keyed_handleConfirmDeleteProject d :
  preserves editorKeyed (handleConfirmDeleteProject JSON_stringify d).
Proof.
  unfold handleConfirmDeleteProject.
  destruct (projectToDelete d) as [target|]; [|apply preserves_ret].
  destruct (negb (truthy (Some target))); step_keyed.
Qed.

Lemma keyed_handleConfirmDeleteApu d :
  preserves editorKeyed (handleConfirmDeleteApu JSON_stringify d).
Proof.
  unfold handleConfirmDeleteApu. apply preserves_bind; [apply preserves_read|].
  intros w0. destruct (apuToDelete d) as [target|]; [|apply preserves_ret].
  destruct (negb (truthy (Some target))); [apply preserves_ret|].
  apply preserves_bind; [step_keyed|]. intros newAPUs.
  apply preserves_bind; [apply keyed_saveProjectState|]. intros _.
  apply preserves_bind; [|intros ?; apply preserves_ret].
  destruct (strict_eq (stringOrNull (editingApuId w0)) (prop target "id"));
    step_keyed.
Qed.

Lemma NEW_APU_id (now : Z) (code : string) :
  prop (JObj (<["code" := JStr code]> (<["id" := JStr (pretty now)]> NEW_APU_TEMPLATE)))
       "id"
  = Some (JStr (pretty now)).
Proof. cbn [prop]. rewrite lookup_insert_ne by discriminate. apply lookup_insert_eq. Qed.

Lemma keyed_handleCreateItem :
  preserves editorKeyed (handleCreateItem JSON_stringify).
Proof.
  unfold handleCreateItem. apply preserves_bind; [apply preserves_read|].
  intros w0. apply preserves_bind; [step_keyed|]. intros now.
  apply preserves_bind; [apply keyed_saveProjectState|]. intros _.
  apply keyed_open. apply NEW_APU_id.
Qed.

Lemma strict_eq_string (v : jsval) (s : string) :
  strict_eq v (Some (JStr s)) = true -> v = Some (JStr s).
Proof.
  destruct v as [[| | |t| |]|]; cbn [strict_eq]; try discriminate.
  intros E. apply String.eqb_eq in E. subst t. reflexivity.
Qed.

(** What [find] hands back satisfies the test it was found by. *)
Lemma Array_find_found (id : string) (l : list json) (w : World) (item : json) :
  fst (Array_find (fun a =>
         bind (get a "id") (fun aid => ret (strict_eq aid (Some (JStr id))))) l w)
  = Return (Some item) ->
  prop item "id" = Some (JStr id).
Proof.
  induction l as [|x l IH]; cbn [Array_find].
  - intros E. discriminate E.
  - unfold bind at 1.
    destruct x as [|b|n|t|xs|m]; cbn [get throw ret bind fst prop strict_eq];
      try (intros E; discriminate E); try exact IH.
    destruct (strict_eq (m !! "id") (Some (JStr id))) eqn:Hm.
    + intros [= <-]. cbn [prop]. apply strict_eq_string. exact Hm.
    + exact IH.
Qed.

Lemma Array_find_world (f : json -> M bool) (l : list json) (w : World) :
  (forall x w0, snd (f x w0) = w0) -> snd (Array_find f l w) = w.
Proof.
  intros Hf. induction l as [|x l IH]; cbn [Array_find].
  - reflexivity.
  - unfold bind. specialize (Hf x w).
    destruct (f x w) as [[[|]|e|] w0]; cbn [snd] in Hf; subst w0;
      try reflexivity. exact IH.
Qed.

Lemma keyed_handleEditItem id :
  preserves editorKeyed (handleEditItem id).
Proof.
  intros w Hw. unfold handleEditItem. unfold bind at 1. unfold bind at 1.
  pose proof (Array_find_found id (projectAPUs w) w) as Hfound.
  pose proof (Array_find_world
                (fun a => bind (get a "id")
                            (fun aid => ret (strict_eq aid (Some (JStr id)))))
                (projectAPUs w) w) as Hworld.
  destruct (Array_find _ (projectAPUs w) w) as [[[item|]|e|] w1];
    cbn [fst snd] in *;
    (rewrite Hworld by (intros x w0; destruct x; reflexivity));
    try exact Hw.
  specialize (Hfound item eq_refl).
  destruct item as [|b|n|t|xs|m]; try discriminate Hfound.
  cbn [truthy object_spread].
  apply (keyed_open (JObj m) id Hfound w Hw).
Qed.

Lemma keyed_navigation project :
  preserves editorKeyed (handleOpenProject project)
  /\ preserves editorKeyed handleCloseProject.
Proof.
  split.
  - unfold handleOpenProject. apply preserves_bind; [step_keyed|]. intros _.
    apply preserves_bind; [apply preserves_get|]. intros apus.
    apply preserves_bind; [|intros _; step_keyed].
    destruct apus as [[]|]; step_keyed.
  - unfold handleCloseProject. step_keyed.
Qed.

Lemma keyed_edit (k : string) (v : json) :
  k <> "id" ->
  preserves editorKeyed
    (fun w =>
       setCurrentEditorAPU
         (match currentEditorAPU w with
          | Some prev =>
              if truthy (Some prev)
              then Some (JObj (<[k := v]> (object_spread prev)))
              else None
          | None => None
          end) w).
Proof.
  intros Hk w Hw draft eid.
  cbn [setCurrentEditorAPU snd currentEditorAPU editingApuId].
  destruct (currentEditorAPU w) as [prev|] eqn:Hprev; [|discriminate].
  destruct (truthy (Some prev)); [|discriminate].
  intros [= <-] He. specialize (Hw prev eid Hprev He).
  destruct prev as [|b|n|t|xs|m]; try discriminate Hw.
  cbn [prop object_spread] in *. rewrite lookup_insert_ne by congruence.
  exact Hw.
Qed.

(** X6. The editor invariant [editorKeyed] (the draft is held under its
    own id) is kept by every handler; [updateField] keeps it for every
    field but [id], the fields the source passes to it. *)
Theorem handlers_keep_editor_keyed :
  (forall file confirmed,
     preserves editorKeyed (handleImportBackup JSON_parse JSON_stringify file confirmed))
  /\ (forall file,
       preserves editorKeyed (handleFileChange JSON_parse JSON_stringify file))
  /\ preserves editorKeyed (loadProjects JSON_parse)
  /\ (forall d, preserves editorKeyed (handleConfirmCreateProject JSON_stringify d))
  /\ (forall d, preserves editorKeyed (handleConfirmDeleteProject JSON_stringify d))
  /\ (forall apus, preserves editorKeyed (saveProjectState JSON_stringify apus))
  /\ preserves editorKeyed (handleBackToList JSON_stringify)
  /\ preserves editorKeyed (handleCreateItem JSON_stringify)
  /\ (forall d, preserves editorKeyed (handleConfirmDeleteApu JSON_stringify d))
  /\ (forall project, preserves editorKeyed (handleOpenProject project))
  /\ preserves editorKeyed handleCloseProject
  /\ (forall id, preserves editorKeyed (handleEditItem id))
  /\ (forall field value, field <> "id" ->
        preserves editorKeyed (updateField field value))
  /\ (forall rs, preserves editorKeyed (updateResources rs))
  /\ (forall storage clk, editorKeyed (initialWorld storage clk)).
Proof.
  repeat match goal with |- _ /\ _ => split end.
  - apply keyed_handleImportBackup.
  - apply keyed_handleFileChange.
  - apply keyed_loadProjects.
  - apply keyed_handleConfirmCreateProject.
  - apply keyed_handleConfirmDeleteProject.
  - apply keyed_saveProjectState.
  - apply keyed_handleBackToList.
  - apply keyed_handleCreateItem.
  - apply keyed_handleConfirmDeleteApu.
  - intros project. exact (proj1 (keyed_navigation project)).
  - exact (proj2 (keyed_navigation JNull)).
  - apply keyed_handleEditItem.
  - intros field value Hf. exact (keyed_edit field value Hf).
  - intros rs. refine (keyed_edit "resources" (JArr rs) _). discriminate.
  - intros storage clk draft eid Hd. discriminate Hd.
Qed.
End EditorFacts.

(** ** Behaviour of the project and concept handlers *)

Section HandlerFacts.
Variable JSON_parse : string -> option json.
Variable JSON_stringify : json -> string.

Lemma Array_filter_sieve (f : json -> M bool) (g : json -> outcome bool) l w :
  (forall x w0, f x w0 = (g x, w0)) ->
  Array_filter f l w = (sieve g l, w).
Proof.
  intros Hf. induction l as [|x l IH]; cbn [Array_filter sieve].
  - reflexivity.
  - unfold bind at 1. rewrite Hf.
    destruct (g x) as [y|e|]; try reflexivity.
    unfold bind at 1. rewrite IH.
    destruct (sieve g l) as [ys|e|]; reflexivity.
Qed.

Lemma otherId_pure target (x : json) w0 :
  bind (get x "id") (fun pid => ret (negb (strict_eq pid target))) w0
  = (otherId target x, w0).
Proof. destruct x; reflexivity. Qed.

Lemma sieve_noNull target l :
  noNull l -> sieve (otherId target) l = Return (List.filter (idDiffers target) l).
Proof.
  induction 1 as [|x l Hx _ IH]; cbn [sieve List.filter].
  - reflexivity.
  - rewrite IH. destruct x; try contradiction; reflexivity.
Qed.


Lemma traverse_noNull target replacement l :
  noNull l ->
  traverse (swapById target replacement) l
  = Return (map (fun p => if strict_eq (prop p "id") target then replacement else p) l).
Proof.
  induction 1 as [|x l Hx _ IH]; cbn [traverse map].
  - reflexivity.
  - rewrite IH. destruct x; try contradiction; reflexivity.
Qed.

Lemma noNull_filter (f : json -> bool) l : noNull l -> noNull (List.filter f l).
Proof.
  unfold noNull. induction 1 as [|x l Hx _ IH]; cbn [List.filter].
  - constructor.
  - destruct (f x); [constructor; assumption | assumption].
Qed.

Lemma filter_idDiffers target l :
  Forall (fun p => strict_eq (prop p "id") target = false)
         (List.filter (idDiffers target) l).
Proof.
  induction l as [|x l IH]; cbn [List.filter].
  - constructor.
  - destruct (idDiffers target x) eqn:E; [|exact IH].
    constructor; [|exact IH]. unfold idDiffers in E.
    apply negb_true_iff in E. exact E.
Qed.


Lemma handleConfirmCreateProject_run d w :
  blank (newProjectName d) = false ->
  handleConfirmCreateProject JSON_stringify d w =
    (Return (mkDialogs (newProjectName d) false (projectToDelete d) (apuToDelete d)),
     let p := newProjectAt (newProjectName d) (clock w (reads w))
                           (clock w (S (reads w))) in
     mkWorld (projects w ++ [p]) (Some p) [] None (currentEditorAPU w)
       (showBackupModal w)
       (<[STORAGE_KEY := JSON_stringify (JArr (projects w ++ [p]))]> (localStorage w))
       (alerts w) (console w) (clock w) (S (S (reads w)))).
Proof.
  intros Hb. unfold handleConfirmCreateProject. rewrite Hb. reflexivity.
Qed.

(** X7. Creating a project.  A name made of white space only is
    turned down and nothing changes; any other name appends a project
    with that name, an empty [apus] and the clock reading as id behind
    the projects already stored, persists the list, opens the new
    project with an empty working list and closes the dialog. *)
Theorem create_project d w :
  (blank (newProjectName d) = true ->
   handleConfirmCreateProject JSON_stringify d w = (Return d, w))
  /\ (blank (newProjectName d) = false ->
      let p := newProjectAt (newProjectName d) (clock w (reads w))
                            (clock w (S (reads w))) in
      let w1 := exec (handleConfirmCreateProject JSON_stringify d) w in
      result (handleConfirmCreateProject JSON_stringify d) w
      = Return (mkDialogs (newProjectName d) false (projectToDelete d) (apuToDelete d))
      /\ projects w1 = projects w ++ [p]
      /\ persisted JSON_stringify w1
      /\ currentProject w1 = Some p
      /\ projectAPUs w1 = []
      /\ editingApuId w1 = None
      /\ prop p "name" = Some (JStr (newProjectName d))
      /\ prop p "apus" = Some (JArr [])
      /\ prop p "id" = Some (JStr (pretty (clock w (reads w))))).
Proof.
  split.
  - intros Hb. unfold handleConfirmCreateProject. rewrite Hb. reflexivity.
  - intros Hb. cbv zeta. unfold exec, result.
    rewrite (handleConfirmCreateProject_run d w Hb).
    cbn [fst snd projects currentProject projectAPUs editingApuId].
    split; [reflexivity|]. split; [reflexivity|].
    split; [unfold persisted; cbn [localStorage projects]; apply lookup_insert_eq|].
    split; [reflexivity|]. split; [reflexivity|]. split; [reflexivity|].
    unfold newProjectAt. cbn [prop].
    split; [|split]; simplify_map_eq; reflexivity.
Qed.




Lemma hasId_object id a :
  hasId id a = true -> exists m, a = JObj m /\ m !! "id" = Some (JStr id).
Proof.
  unfold hasId. intros E. apply strict_eq_string in E.
  destruct a as [|b|n|t|xs|m]; try discriminate E. exists m. split; [reflexivity|exact E].
Qed.

Lemma Array_find_noNull id l w :
  noNull l ->
  Array_find (fun a =>
    bind (get a "id") (fun aid => ret (strict_eq aid (Some (JStr id))))) l w
  = (Return (List.find (hasId id) l), w).
Proof.
  induction 1 as [|x l Hx _ IH]; cbn [Array_find List.find].
  - reflexivity.
  - unfold bind at 1.
    destruct x as [|b|n|t|xs|m]; try contradiction;
      cbn [get ret bind]; unfold hasId; cbn [prop];
      try (cbn [strict_eq]; exact IH).
    destruct (strict_eq (m !! "id") (Some (JStr id))); [reflexivity | exact IH].
Qed.

Lemma handleEditItem_found id w item :
  noNull (projectAPUs w) ->
  List.find (hasId id) (projectAPUs w) = Some item ->
  handleEditItem id w = (Return tt, editorOn item id w)
  /\ prop item "id" = Some (JStr id).
Proof.
  intros Hn Hf. unfold handleEditItem. unfold bind at 1. unfold bind at 1.
  rewrite (Array_find_noNull id _ w Hn), Hf.
  apply List.find_some in Hf as [_ Hid].
  destruct (hasId_object _ _ Hid) as (m & -> & Hm).
  split; [reflexivity | exact Hm].
Qed.

(** X10. Opening the editor.  On a working list without [null], the
    editor opens on a copy of the first concept whose id is the one
    asked for, under that id, and nothing else changes; when no concept
    has that id the call changes nothing at all. *)
Theorem edit_item id w :
  noNull (projectAPUs w) ->
  (forall item, List.find (hasId id) (projectAPUs w) = Some item ->
     handleEditItem id w = (Return tt, editorOn item id w)
     /\ prop item "id" = Some (JStr id))
  /\ (List.find (hasId id) (projectAPUs w) = None ->
      handleEditItem id w = (Return tt, w)).
Proof.
  intros Hn. split.
  - intros item Hf. apply handleEditItem_found; assumption.
  - intros Hf. unfold handleEditItem. unfold bind at 1. unfold bind at 1.
    rewrite (Array_find_noNull id _ w Hn), Hf. reflexivity.
Qed.

(** What [saveProjectState] leaves in the working list: the list it
    was given, or, when it returns at once, the list that was there. *)
Lemma saveProjectState_projectAPUs apus w :
  snd (saveProjectState JSON_stringify apus w) = w
  \/ projectAPUs (snd (saveProjectState JSON_stringify apus w)) = apus.
Proof.
  destruct (currentProject w) as [cp|] eqn:Hc.
  - destruct (truthy (Some cp)) eqn:Ht.
    + right. rewrite (saveProjectState_run JSON_stringify apus w cp Hc Ht).
      destruct (traverse _ (projects w)); reflexivity.
    + left. rewrite (saveProjectState_falsy JSON_stringify apus w cp Hc Ht).
      reflexivity.
  - left. rewrite (saveProjectState_none JSON_stringify apus w Hc). reflexivity.
Qed.

Lemma map_swap_same (id : string) (item : json) (l : list json) :
  (forall x, x ∈ l -> hasId id x = true -> x = item) ->
  map (fun p => if strict_eq (prop p "id") (Some (JStr id)) then item else p) l = l.
Proof.
  induction l as [|x l IH]; intros Hu; cbn [map].
  - reflexivity.
  - rewrite IH by (intros y Hy; apply Hu; apply elem_of_cons; right; exact Hy).
    destruct (strict_eq (prop x "id") (Some (JStr id))) eqn:E; [|reflexivity].
    rewrite (Hu x (proj2 (elem_of_cons _ _ _) (or_introl eq_refl)) E). reflexivity.
Qed.

(** X11. Opening the editor on a concept and going back without an
    edit leaves the working list as it was, when the concepts carrying
    that id are all the same record (as under unique ids). *)
Theorem edit_then_back_keeps_the_list id item w :
  noNull (projectAPUs w) ->
  List.find (hasId id) (projectAPUs w) = Some item ->
  (forall x, x ∈ projectAPUs w -> hasId id x = true -> x = item) ->
  let w1 := exec (handleEditItem id) w in
  let w2 := exec (handleBackToList JSON_stringify) w1 in
  projectAPUs w2 = projectAPUs w.
Proof.
  intros Hn Hf Hu. cbv zeta. unfold exec.
  destruct (handleEditItem_found id w item Hn Hf) as [-> Hid]. cbn [snd].
  destruct (commits (editorOn item id w)) eqn:Hc.
  - rewrite (handleBackToList_commit JSON_stringify (editorOn item id w) item id
               eq_refl eq_refl Hc).
    cbn [editorOn projectAPUs].
    rewrite (traverse_noNull _ _ _ Hn), (map_swap_same id item _ Hu).
    destruct (saveProjectState_projectAPUs (projectAPUs w) (editorOn item id w))
      as [Hs|Hs];
      destruct (saveProjectState JSON_stringify (projectAPUs w) (editorOn item id w))
        as [[[]|e|] w'] eqn:Hsave; cbn [snd] in *;
      try (subst w'; reflexivity); try exact Hs.
  - rewrite (handleBackToList_skip JSON_stringify _ Hc). reflexivity.
Qed.

Lemma saveProjectState_noNull apus w m :
  currentProject w = Some (JObj m) ->
  noNull (projects w) ->
  let up := updatedProject (JObj m) apus (clock w (reads w)) in
  saveProjectState JSON_stringify apus w =
    (Return tt,
     committed JSON_stringify up apus
       (map (fun p => if strict_eq (prop p "id") (m !! "id") then up else p)
            (projects w)) w).
Proof.
  intros Hc Hn. cbv zeta.
  rewrite (saveProjectState_run JSON_stringify apus w (JObj m) Hc eq_refl).
  rewrite (traverse_noNull _ _ _ Hn).
  rewrite updatedProject_lookup. reflexivity.
Qed.


Lemma handleCreateItem_run w :
  handleCreateItem JSON_stringify w =
    let item := newItemAt (clock w (reads w)) (length (projectAPUs w)) in
    match saveProjectState JSON_stringify (projectAPUs w ++ [item]) (ticked w) with
    | (Return _, w') => (Return tt, editorOn item (pretty (clock w (reads w))) w')
    | (Throw e, w') => (Throw e, w')
    | (IllTyped, w') => (IllTyped, w')
    end.
Proof.
  unfold handleCreateItem. unfold bind at 1. unfold bind at 1.
  cbn [Date_now]. fold (ticked w).
  fold (newItemAt (clock w (reads w)) (length (projectAPUs w))).
  cbv zeta. unfold bind at 1.
  destruct (saveProjectState JSON_stringify _ (ticked w)) as [[[]|e|] w'];
    reflexivity.
Qed.

(** X13. Adding a concept.  With a project open (and no [null] in the
    store) the working list and the open project's [apus] gain exactly
    one concept at the end: the template with the clock reading as id
    and the code CON-(n+1), n being the length of the list; the editor
    opens on it and the store is persisted.  With no project open
    nothing is added anywhere, yet the editor still opens on the new
    concept. *)
Theorem create_item w :
  let item := newItemAt (clock w (reads w)) (length (projectAPUs w)) in
  let w1 := exec (handleCreateItem JSON_stringify) w in
  (prop item "id" = Some (JStr (pretty (clock w (reads w))))
   /\ prop item "code"
      = Some (JStr (String.append "CON-" (pretty (length (projectAPUs w) + 1)%nat)))
   /\ prop item "resources" = Some (JArr [])
   /\ forall k, k <> "id" -> k <> "code" -> prop item k = NEW_APU_TEMPLATE !! k)
  /\ (forall m,
       currentProject w = Some (JObj m) -> noNull (projects w) ->
       projectAPUs w1 = projectAPUs w ++ [item]
       /\ (exists m', currentProject w1 = Some (JObj m')
                      /\ m' !! "apus" = Some (JArr (projectAPUs w ++ [item])))
       /\ length (projects w1) = length (projects w)
       /\ persisted JSON_stringify w1
       /\ currentEditorAPU w1 = Some item
       /\ editingApuId w1 = Some (pretty (clock w (reads w))))
  /\ (currentProject w = None ->
      projectAPUs w1 = projectAPUs w
      /\ projects w1 = projects w
      /\ localStorage w1 = localStorage w
      /\ currentEditorAPU w1 = Some item
      /\ editingApuId w1 = Some (pretty (clock w (reads w)))).
Proof.
  cbv zeta. split; [|split].
  - unfold newItemAt. cbn [prop].
    split; [simplify_map_eq; reflexivity|].
    split; [simplify_map_eq; reflexivity|].
    split; [unfold NEW_APU_TEMPLATE; simplify_map_eq; reflexivity|].
    intros k Hi Hc. rewrite !lookup_insert_ne by congruence. reflexivity.
  - intros m Hc Hn. unfold exec. rewrite handleCreateItem_run. cbv zeta.
    rewrite (saveProjectState_noNull _ (ticked w) m Hc Hn).
    cbn [snd editorOn committed ticked projects currentProject projectAPUs
         currentEditorAPU editingApuId].
    split; [reflexivity|]. split.
    { eexists. split; [reflexivity|]. simplify_map_eq. reflexivity. }
    split; [apply length_map|].
    split; [unfold persisted; cbn [localStorage projects]; apply lookup_insert_eq|].
    split; reflexivity.
  - intros Hc. unfold exec. rewrite handleCreateItem_run. cbv zeta.
    rewrite (saveProjectState_none JSON_stringify _ (ticked w) Hc).
    cbn [snd]. repeat split.
Qed.

Lemma handleConfirmDeleteApu_run d w target :
  apuToDelete d = Some target ->
  truthy (Some target) = true ->
  noNull (projectAPUs w) ->
  handleConfirmDeleteApu JSON_stringify d w =
    match saveProjectState JSON_stringify
            (List.filter (idDiffers (prop target "id")) (projectAPUs w)) w with
    | (Return _, w') =>
        (Return (mkDialogs (newProjectName d) (isCreatingProject d)
                           (projectToDelete d) None),
         if strict_eq (stringOrNull (editingApuId w)) (prop target "id")
         then closedEditor w' else w')
    | (Throw e, w') => (Throw e, w')
    | (IllTyped, w') => (IllTyped, w')
    end.
Proof.
  intros Hd Ht Hn. unfold handleConfirmDeleteApu. unfold bind at 1.
  rewrite Hd, Ht. cbn [negb]. unfold bind at 1.
  rewrite (Array_filter_sieve _ (otherId (prop target "id")) _ _
             (otherId_pure (prop target "id"))).
  rewrite (sieve_noNull _ _ Hn). unfold bind at 1.
  destruct (saveProjectState JSON_stringify _ w) as [[[]|e|] w']; try reflexivity.
  unfold bind at 1.
  destruct (strict_eq (stringOrNull (editingApuId w)) (prop target "id"));
    reflexivity.
Qed.

Lemma saveProjectState_open apus w cp :
  currentProject w = Some cp -> truthy (Some cp) = true ->
  projectAPUs (snd (saveProjectState JSON_stringify apus w)) = apus.
Proof.
  intros Hc Ht. rewrite (saveProjectState_run JSON_stringify apus w cp Hc Ht).
  destruct (traverse _ (projects w)); reflexivity.
Qed.

Lemma delete_apu_list d w target cp :
  apuToDelete d = Some target -> truthy (Some target) = true ->
  currentProject w = Some cp -> truthy (Some cp) = true ->
  noNull (projectAPUs w) ->
  projectAPUs (exec (handleConfirmDeleteApu JSON_stringify d) w)
  = List.filter (idDiffers (prop target "id")) (projectAPUs w)
  /\ Forall (fun a => strict_eq (prop a "id") (prop target "id") = false)
            (projectAPUs (exec (handleConfirmDeleteApu JSON_stringify d) w)).
Proof.
  intros Hd Ht Hc Hcp Hn. unfold exec.
  rewrite (handleConfirmDeleteApu_run d w target Hd Ht Hn).
  pose proof (saveProjectState_open
                (List.filter (idDiffers (prop target "id")) (projectAPUs w))
                w cp Hc Hcp) as Hlist.
  assert (projectAPUs
            (snd (match saveProjectState JSON_stringify
                          (List.filter (idDiffers (prop target "id")) (projectAPUs w))
                          w with
                  | (Return _, w') =>
                      (Return (mkDialogs (newProjectName d) (isCreatingProject d)
                                 (projectToDelete d) None),
                       if strict_eq (stringOrNull (editingApuId w)) (prop target "id")
                       then closedEditor w' else w')
                  | (Throw e, w') => (Throw e, w')
                  | (IllTyped, w') => (IllTyped, w')
                  end))
          = List.filter (idDiffers (prop target "id")) (projectAPUs w)) as ->.
  { destruct (saveProjectState JSON_stringify _ w) as [[[]|e|] w'];
      cbn [snd] in *; try exact Hlist.
    destruct (strict_eq (stringOrNull (editingApuId w)) (prop target "id"));
      exact Hlist. }
  split; [reflexivity | apply filter_idDiffers].
Qed.


Lemma strict_eq_via (a : jsval) (s : string) (b : jsval) :
  strict_eq a (Some (JStr s)) = true ->
  strict_eq (Some (JStr s)) b = strict_eq a b.
Proof. intros E. apply strict_eq_string in E. subst a. reflexivity. Qed.

Lemma back_keeps_absent (id : jsval) w :
  editorKeyed w ->
  noNull (projectAPUs w) ->
  Forall (fun a => strict_eq (prop a "id") id = false) (projectAPUs w) ->
  Forall (fun a => strict_eq (prop a "id") id = false)
         (projectAPUs (exec (handleBackToList JSON_stringify) w)).
Proof.
  intros Hk Hn Habs. unfold exec.
  destruct (commits w) eqn:Hc.
  2:{ rewrite (handleBackToList_skip JSON_stringify w Hc). exact Habs. }
  pose proof Hc as Hc'. unfold commits in Hc'.
  destruct (currentEditorAPU w) as [draft|] eqn:Hd; [|discriminate Hc'].
  destruct (editingApuId w) as [eid|] eqn:He; [|discriminate Hc'].
  clear Hc'. specialize (Hk draft eid Hd He).
  rewrite (handleBackToList_commit JSON_stringify w draft eid Hd He Hc).
  rewrite (traverse_noNull _ _ _ Hn).
  set (new := map _ (projectAPUs w)).
  assert (Forall (fun a => strict_eq (prop a "id") id = false) new) as Hnew.
  { subst new. clear Hn. induction Habs as [|x l Hx _ IH]; cbn [map]; constructor.
    - destruct (strict_eq (prop x "id") (Some (JStr eid))) eqn:E; [|exact Hx].
      rewrite Hk. rewrite (strict_eq_via _ _ id E). exact Hx.
    - exact IH. }
  destruct (saveProjectState_projectAPUs new w) as [Hs|Hs];
    destruct (saveProjectState JSON_stringify new w) as [[[]|e|] w'];
    cbn [snd closedEditor projectAPUs] in *;
    try (subst w'; exact Habs); try (rewrite Hs; exact Hnew).
Qed.

(** X15. Going back never brings an id into the working list.  When
    the editor holds its draft under the draft's own id, a working list
    (without [null]) in which no concept has a given id still has none
    after [handleBackToList]. *)
Theorem back_adds_no_id (id : jsval) w :
  editorKeyed w ->
  noNull (projectAPUs w) ->
  Forall (fun a => strict_eq (prop a "id") id = false) (projectAPUs w) ->
  Forall (fun a => strict_eq (prop a "id") id = false)
         (projectAPUs (exec (handleBackToList JSON_stringify) w)).
Proof. apply back_keeps_absent. Qed.

(** X16. A deleted concept stays deleted.  After a concept has been
    deleted from an open project, going back from the editor, whatever
    draft it holds, leaves no concept with the deleted id in the
    working list. *)
Theorem deleted_apu_stays_deleted d w target cp :
  apuToDelete d = Some target -> truthy (Some target) = true ->
  currentProject w = Some cp -> truthy (Some cp) = true ->
  noNull (projectAPUs w) ->
  editorKeyed w ->
  let w1 := exec (handleConfirmDeleteApu JSON_stringify d) w in
  let w2 := exec (handleBackToList JSON_stringify) w1 in
  Forall (fun a => strict_eq (prop a "id") (prop target "id") = false)
         (projectAPUs w2).
Proof.
  intros Hd Ht Hc Hcp Hn Hk. cbv zeta.
  destruct (delete_apu_list d w target cp Hd Ht Hc Hcp Hn) as [Hl Habs].
  apply back_keeps_absent.
  - apply (keyed_handleConfirmDeleteApu JSON_stringify d w Hk).
  - unfold exec in Hl |- *. rewrite Hl. apply noNull_filter. exact Hn.
  - exact Habs.
Qed.

Lemma applyEdit_run (e : edit) (w : World) :
  exists draft,
    applyEdit e w = setCurrentEditorAPU draft w
    /\ (currentEditorAPU w = None -> draft = None).
Proof.
  destruct e as [field value|rs]; cbn [applyEdit]; unfold updateField, updateResources;
    eexists; (split; [reflexivity|]); intros ->; reflexivity.
Qed.

(** X17. Edits stay in the draft.  Any sequence of [updateField] and
    [updateResources] calls returns normally and leaves the stored
    projects, the open project, the working list, the persisted
    document and the editing id as they were; with no draft open it
    creates none. *)
Theorem edits_stay_in_the_draft (es : list edit) (w : World) :
  let w1 := exec (applyEdits es) w in
  result (applyEdits es) w = Return tt
  /\ projects w1 = projects w
  /\ currentProject w1 = currentProject w
  /\ projectAPUs w1 = projectAPUs w
  /\ localStorage w1 = localStorage w
  /\ editingApuId w1 = editingApuId w
  /\ (currentEditorAPU w = None -> currentEditorAPU w1 = None).
Proof.
  cbv zeta. unfold exec, result. revert w.
  induction es as [|e es IH]; intros w; cbn [applyEdits].
  - repeat split. intros H. exact H.
  - unfold bind. destruct (applyEdit_run e w) as (draft & -> & Hnone).
    cbn [setCurrentEditorAPU].
    destruct (IH (mkWorld (projects w) (currentProject w) (projectAPUs w)
                    (editingApuId w) draft (showBackupModal w) (localStorage w)
                    (alerts w) (console w) (clock w) (reads w)))
      as (Hr & Hp & Hc & Ha & Hl & He & Hd).
    cbn [projects currentProject projectAPUs localStorage editingApuId
         currentEditorAPU] in *.
    repeat split; try assumption.
    intros Hw. apply Hd. apply Hnone. exact Hw.
Qed.

(** X18. Going back commits the draft in place.  With a draft open
    under a non-empty editing id, a project open and no [null] in the
    working list or the store, every concept of the working list whose
    id is the editing id is replaced by the draft and every other
    concept is kept, in order; the open project's [apus] is that list,
    the store is persisted and the editor is closed. *)
Theorem commit_replaces_in_place w draft eid m :
  currentEditorAPU w = Some draft ->
  editingApuId w = Some eid ->
  commits w = true ->
  currentProject w = Some (JObj m) ->
  noNull (projectAPUs w) ->
  noNull (projects w) ->
  let new := map (fun a => if hasId eid a then draft else a) (projectAPUs w) in
  let w1 := exec (handleBackToList JSON_stringify) w in
  result (handleBackToList JSON_stringify) w = Return tt
  /\ projectAPUs w1 = new
  /\ length (projectAPUs w1) = length (projectAPUs w)
  /\ (exists m', currentProject w1 = Some (JObj m')
                  /\ m' !! "apus" = Some (JArr new))
  /\ persisted JSON_stringify w1
  /\ currentEditorAPU w1 = None
  /\ editingApuId w1 = None.
Proof.
  intros Hd He Hc Hcp Hn Hns. cbv zeta. unfold exec, result.
  rewrite (handleBackToList_commit JSON_stringify w draft eid Hd He Hc).
  rewrite (traverse_noNull _ _ _ Hn).
  rewrite (saveProjectState_noNull _ w m Hcp Hns).
  cbn [fst snd closedEditor committed projects currentProject projectAPUs
       currentEditorAPU editingApuId].
  split; [reflexivity|]. split; [reflexivity|]. split; [apply length_map|].
  split.
  { eexists. split; [reflexivity|]. simplify_map_eq. reflexivity. }
  split; [unfold persisted; cbn [localStorage projects]; apply lookup_insert_eq|].
  split; reflexivity.
Qed.
End HandlerFacts.

(** ** The further statements at sample inputs *)

Lemma noNull_sample_apus : noNull [sampleApu "1"].
Proof. repeat constructor. discriminate. Qed.

Lemma noNull_sample_projects : noNull [JObj openProject].
Proof. repeat constructor. discriminate. Qed.


Lemma orphanDraftWorld_keyed : editorKeyed orphanDraftWorld.
Proof. intros draft eid [= <-] [= <-]. reflexivity. Qed.

Lemma handlers_keep_document_in_step_witness :
  persisted sampleStringify sampleWorld
  /\ persisted sampleStringify
       (exec (handleConfirmCreateProject sampleStringify sampleDialogs) sampleWorld).
Proof.
  split; [reflexivity|].
  refine (proj1 (proj2 (proj2 (handlers_keep_document_in_step
                                 sampleParse sampleStringify)))
                sampleDialogs sampleWorld _).
  reflexivity.
Defined.


Lemma handlers_keep_editor_keyed_witness :
  editorKeyed (exec (updateField "description" (JStr "Muro")) orphanDraftWorld)
  /\ editorKeyed (exec (handleEditItem "1") orphanDraftWorld).
Proof.
  pose proof (handlers_keep_editor_keyed sampleParse sampleStringify) as H.
  split.
  - refine (proj1 (proj2 (proj2 (proj2 (proj2 (proj2 (proj2 (proj2 (proj2
             (proj2 (proj2 (proj2 (proj2 H))))))))))))
             "description" (JStr "Muro") _ orphanDraftWorld orphanDraftWorld_keyed).
    discriminate.
  - exact (proj1 (proj2 (proj2 (proj2 (proj2 (proj2 (proj2 (proj2 (proj2
             (proj2 (proj2 (proj2 H)))))))))))
             "1" orphanDraftWorld orphanDraftWorld_keyed).
Defined.

Lemma create_project_witness :
  blank "  " = true
  /\ blank (newProjectName sampleDialogs) = false
  /\ handleConfirmCreateProject sampleStringify (mkDialogs "  " true None None)
       sampleWorld
     = (Return (mkDialogs "  " true None None), sampleWorld)
  /\ projects (exec (handleConfirmCreateProject sampleStringify sampleDialogs)
                    sampleWorld)
     = projects sampleWorld
       ++ [newProjectAt "Casa nueva" 1700000000000 1700000000001].
Proof.
  split; [reflexivity|]. split; [reflexivity|]. split.
  - exact (proj1 (create_project sampleStringify (mkDialogs "  " true None None)
                    sampleWorld) eq_refl).
  - exact (proj1 (proj2 (proj2 (create_project sampleStringify sampleDialogs
                                  sampleWorld) eq_refl))).
Defined.



Lemma edit_item_witness :
  handleEditItem "1" orphanDraftWorld
  = (Return tt, editorOn (sampleApu "1") "1" orphanDraftWorld)
  /\ handleEditItem "7" orphanDraftWorld = (Return tt, orphanDraftWorld).
Proof.
  split.
  - exact (proj1 (proj1 (edit_item "1" orphanDraftWorld noNull_sample_apus)
                    (sampleApu "1") eq_refl)).
  - exact (proj2 (edit_item "7" orphanDraftWorld noNull_sample_apus) eq_refl).
Defined.

Lemma edit_then_back_keeps_the_list_witness :
  projectAPUs (exec (handleBackToList sampleStringify)
                 (exec (handleEditItem "1") orphanDraftWorld))
  = projectAPUs orphanDraftWorld.
Proof.
  refine (edit_then_back_keeps_the_list sampleStringify "1" (sampleApu "1")
            orphanDraftWorld noNull_sample_apus eq_refl _).
  intros x Hx _. apply list_elem_of_singleton in Hx. exact Hx.
Defined.


Lemma create_item_witness :
  projectAPUs (exec (handleCreateItem sampleStringify) orphanDraftWorld)
  = projectAPUs orphanDraftWorld ++ [newItemAt 1700000000000 1]
  /\ projectAPUs (exec (handleCreateItem sampleStringify) sampleWorld)
     = projectAPUs sampleWorld.
Proof.
  split.
  - exact (proj1 (proj1 (proj2 (create_item sampleStringify orphanDraftWorld))
                    openProject eq_refl noNull_sample_projects)).
  - exact (proj1 (proj2 (proj2 (create_item sampleStringify sampleWorld)) eq_refl)).
Defined.


Lemma back_adds_no_id_witness :
  Forall (fun a => strict_eq (prop a "id") (Some (JStr "99")) = false)
         (projectAPUs (exec (handleBackToList sampleStringify) orphanDraftWorld)).
Proof.
  refine (back_adds_no_id sampleStringify (Some (JStr "99")) orphanDraftWorld
            orphanDraftWorld_keyed noNull_sample_apus _).
  repeat constructor.
Defined.

Lemma deleted_apu_stays_deleted_witness :
  Forall (fun a => strict_eq (prop a "id") (Some (JStr "1")) = false)
         (projectAPUs
            (exec (handleBackToList sampleStringify)
               (exec (handleConfirmDeleteApu sampleStringify deleteApuDialogs)
                     orphanDraftWorld))).
Proof.
  exact (deleted_apu_stays_deleted sampleStringify deleteApuDialogs orphanDraftWorld
           (sampleApu "1") (JObj openProject) eq_refl eq_refl eq_refl eq_refl
           noNull_sample_apus orphanDraftWorld_keyed).
Defined.

Lemma edits_stay_in_the_draft_witness :
  currentEditorAPU sampleWorld = None
  /\ currentEditorAPU
       (exec (applyEdits [EditField "code" (JStr "X"); EditResources []]) sampleWorld)
     = None.
Proof.
  split; [reflexivity|].
  exact (proj2 (proj2 (proj2 (proj2 (proj2 (proj2
           (edits_stay_in_the_draft
              [EditField "code" (JStr "X"); EditResources []] sampleWorld))))))
           eq_refl).
Defined.

Lemma commit_replaces_in_place_witness :
  projectAPUs (exec (handleBackToList sampleStringify) editingWorld)
  = [JObj (<["description" := JStr "Muro"]>
            (<["id" := JStr "1"]> (<["code" := JStr "CON-1"]> ∅)))].
Proof.
  exact (proj1 (proj2 (commit_replaces_in_place sampleStringify editingWorld _ "1"
                         openProject eq_refl eq_refl eq_refl eq_refl
                         noNull_sample_apus noNull_sample_projects))).
Defined.
